(** * proto_uxst: the UNIX SOCK_STREAM protocol layer

    A shallow embedding of [src/proto_uxst.c] and the verification of its
    specification.

    The C functions talk to the kernel and to other parts of the proxy
    (logging, the fd table, the listener and connection layers).  Every such
    call is recorded, with its arguments and with the answer it received, in a
    trace; the answers come from an environment which is a parameter of all
    the definitions, so that a theorem holds for whatever the kernel answers.
    The functions themselves are written in a small state monad over the
    trace and [errno], statement by statement as in the C source, the [goto]
    labels of the unwinding chain being one function each. *)

From Stdlib Require Import ZArith String Ascii List Bool Lia DecimalString.
Import ListNotations.
Local Open Scope string_scope.
Local Open Scope Z_scope.

Set Implicit Arguments.

(* ===================================================================== *)
(** * Constants of the headers                                            *)
(* ===================================================================== *)

(** The values of the macros and enumerators below are given by headers
    which are not part of the file ([<sys/un.h>],
    [<sys/param.h>], [haproxy/errors.h], [haproxy/connection-t.h],
    [haproxy/listener-t.h]).  They are parameters of the development,
    together with the only facts about them that are used: [ERR_NONE] is
    the empty mask and the flags of one mask do not overlap. *)
Class headers : Type := {
  (* <sys/param.h>, <sys/un.h> *)
  MAXPATHLEN : Z;
  sizeof_sun_path : Z;          (* sizeof(addr.sun_path) *)
  (* haproxy/errors.h *)
  ERR_NONE : Z; ERR_RETRYABLE : Z; ERR_FATAL : Z; ERR_ABORT : Z; ERR_ALERT : Z;
  ERR_NONE_empty : ERR_NONE = 0;
  ERR_RETRYABLE_set : ERR_RETRYABLE <> 0;
  ERR_FATAL_set : ERR_FATAL <> 0;
  ERR_FATAL_RETRYABLE : Z.land ERR_FATAL ERR_RETRYABLE = 0;
  ERR_ALERT_RETRYABLE : Z.land ERR_ALERT ERR_RETRYABLE = 0;
  ERR_RETRYABLE_FATAL : Z.land ERR_RETRYABLE ERR_FATAL = 0;
  ERR_ALERT_FATAL : Z.land ERR_ALERT ERR_FATAL = 0;
  ERR_FATAL_ABORT : Z.land ERR_FATAL ERR_ABORT = 0;
  ERR_RETRYABLE_ABORT : Z.land ERR_RETRYABLE ERR_ABORT = 0;
  ERR_ALERT_ABORT : Z.land ERR_ALERT ERR_ABORT = 0;
  (* haproxy/connection-t.h *)
  CO_FL_ERROR : Z; CO_FL_WAIT_L4_CONN : Z; CO_FL_ADDR_TO_SET : Z;
  CO_FL_SEND_PROXY : Z;
  CONNECT_HAS_DATA : Z;
  CO_FL_ERROR_set : CO_FL_ERROR <> 0;
  CO_FL_WAIT_L4_CONN_set : CO_FL_WAIT_L4_CONN <> 0;
  CO_FL_ERROR_WAIT : Z.land CO_FL_ERROR CO_FL_WAIT_L4_CONN = 0;
  CO_FL_ADDR_WAIT : Z.land CO_FL_ADDR_TO_SET CO_FL_WAIT_L4_CONN = 0;
  CO_FL_PROXY_WAIT : Z.land CO_FL_SEND_PROXY CO_FL_WAIT_L4_CONN = 0;
  (* haproxy/listener-t.h *)
  LI_INIT : Z; LI_ASSIGNED : Z; LI_LISTEN : Z;
  LI_O_INHERITED : Z
}.

(** The values of [errno] that the file tests, which POSIX requires to be
    distinct numbers, and any other error number. *)
Inductive errno : Type :=
| ENOENT | EAGAIN | ENOMEM | ENFILE | EMFILE | EPROTONOSUPPORT
| EAFNOSUPPORT | EADDRINUSE | EADDRNOTAVAIL | ENOBUFS | EISCONN
| ETIMEDOUT | EALREADY | EINPROGRESS
| E_other (n : Z).

(** [a == b] on error numbers. *)
Definition errno_eqb (a b : errno) : bool :=
  match a, b with
  | ENOENT, ENOENT | EAGAIN, EAGAIN | ENOMEM, ENOMEM | ENFILE, ENFILE
  | EMFILE, EMFILE | EPROTONOSUPPORT, EPROTONOSUPPORT
  | EAFNOSUPPORT, EAFNOSUPPORT | EADDRINUSE, EADDRINUSE
  | EADDRNOTAVAIL, EADDRNOTAVAIL | ENOBUFS, ENOBUFS | EISCONN, EISCONN
  | ETIMEDOUT, ETIMEDOUT | EALREADY, EALREADY
  | EINPROGRESS, EINPROGRESS => true
  | E_other n, E_other m => n =? m
  | _, _ => false
  end.

(** [enum] of the outcomes of [connect], as listed in the comment of
    [uxst_connect_server]. *)
Inductive sf_err : Type :=
| SF_ERR_NONE | SF_ERR_SRVTO | SF_ERR_SRVCL | SF_ERR_PRXCOND
| SF_ERR_RESOURCE | SF_ERR_INTERNAL.

(** The error codes a connection can carry ([conn->err_code]); [CO_ER_NONE]
    is the value of a connection without error. *)
Inductive co_er : Type :=
| CO_ER_NONE | CO_ER_CONF_FDLIM | CO_ER_PROC_FDLIM | CO_ER_SYS_FDLIM
| CO_ER_SYS_MEMLIM | CO_ER_NOPROTO | CO_ER_SOCK_ERR | CO_ER_FREE_PORTS
| CO_ER_ADDR_INUSE.

(** Priorities of [<syslog.h>]. *)
Inductive log_level : Type :=
| LOG_EMERG | LOG_ALERT | LOG_CRIT | LOG_ERR
| LOG_WARNING | LOG_NOTICE | LOG_INFO | LOG_DEBUG.

(* ===================================================================== *)
(** * Data model                                                          *)
(* ===================================================================== *)

(** The process-wide values the file reads: [global.maxsock],
    [global.tune.server_sndbuf], [global.tune.server_rcvbuf], [pid] and
    [master]. *)
Record globals : Type := {
  maxsock : Z;
  tune_server_sndbuf : Z;
  tune_server_rcvbuf : Z;
  pid : Z;
  master : Z
}.

(** [listener->bind_conf]: [ux.uid], [ux.gid], [ux.mode], [bind_thread]. *)
Record bind_conf : Type := {
  ux_uid : Z;
  ux_gid : Z;
  ux_mode : Z;
  bind_thread : Z
}.

(** [struct listener].  [li_addr] is the content of the [sun_path] array of
    the address: a path, or an abstract name when its first byte is zero. *)
Record listener : Type := {
  li_state : Z;
  li_fd : Z;
  li_addr : string;
  li_options : Z;
  li_bind_conf : bind_conf
}.

(** [struct protocol], for what the file uses of it: the listeners
    attached to the protocol, in list order, and their number. *)
Record protocol : Type := {
  listeners : list listener;
  nb_listeners : Z
}.

Record proxy : Type := { id : string }.

Record server : Type := { srv_proxy : proxy }.

(** [conn->target] with its [obj_type]: a proxy, a server, or any other
    kind of object (including none). *)
Inductive target : Type :=
| OBJ_TYPE_PROXY (px : proxy)
| OBJ_TYPE_SERVER (srv : server)
| OBJ_TYPE_other.

(** [struct connection]: [target], [dst], [handle.fd], [flags], [err_code],
    [send_proxy_ofs]. *)
Record connection : Type := {
  conn_target : target;
  conn_dst : string;
  conn_handle_fd : Z;
  conn_flags : Z;
  conn_err_code : co_er;
  conn_send_proxy_ofs : Z
}.

(* ===================================================================== *)
(** * Calls to the outside, answers and traces                            *)
(* ===================================================================== *)

(** An argument of a [printf]-like call: [%s] or [%d]. *)
Inductive fmt_arg : Type :=
| arg_s (s : string)
| arg_d (d : Z).

(** The calls the file makes to the kernel and to the rest of the proxy.
    The two stores into [fdtab] are calls too.  The calls on a connection
    carry its descriptor; [fd_insert] carries the [bind_thread] of the
    listener, of which its mask is made. *)
Inductive call : Type :=
| sys_socket
| sys_close (fd : Z)
| sys_unlink (pathname : string)
| sys_link (oldpath newpath : string)
| sys_rename (oldpath newpath : string)
| sys_fcntl_nonblock (fd : Z)
| sys_fcntl_cloexec (fd : Z)
| sys_bind (fd : Z) (sun_path : string)
| sys_chown (pathname : string) (uid gid : Z)
| sys_chmod (pathname : string) (mode : Z)
| sys_getsockopt_acceptconn (fd : Z)
| sys_listen (fd : Z) (backlog : Z)
| sys_setsockopt_sndbuf (fd : Z) (val : Z)
| sys_setsockopt_rcvbuf (fd : Z) (val : Z)
| sys_connect (fd : Z) (dst : string)
| hap_qfprintf (fmt : string) (args : list fmt_arg)
| hap_ha_alert (fmt : string)
| hap_send_log (px : proxy) (level : log_level) (fmt : string)
    (args : list fmt_arg)
| hap_sock_find_compatible_fd (l : listener)
| hap_listener_backlog (l : listener)
| hap_fd_insert (fd : Z) (bind_thread : Z)
| hap_fdtab_exported (fd : Z)
| hap_fdtab_linger_risk (fd : Z) (v : Z)
| hap_conn_ctrl_init (fd : Z)
| hap_fd_want_send (fd : Z)
| hap_fd_cant_send (fd : Z)
| hap_fd_cant_recv (fd : Z)
| hap_conn_xprt_init (fd : Z)
| hap_conn_full_close (fd : Z)
| hap_fd_delete (fd : Z).

(** The answer to a call: the returned value, the value of [errno] after
    the call and, for [getsockopt], the value stored through its pointer.
    A helper that is given the connection by pointer can write it:
    [r_fd] and [r_code] are what it leaves in [conn->handle.fd] and in
    [conn->err_code], when it writes them. *)
Record reply : Type := {
  r_ret : Z;
  r_errno : errno;
  r_out : Z;
  r_fd : option Z;
  r_code : option co_er
}.

Record event : Type := Ev {
  ev_call : call;
  ev_reply : reply
}.

(** The environment answers a call knowing the calls made before it. *)
Definition Env : Type := list call -> call -> reply.

(** State of a run: the trace so far, oldest event first, and [errno]. *)
Record world : Type := {
  w_trace : list event;
  w_errno : errno
}.

Definition M (A : Type) : Type := world -> A * world.

Definition ret {A : Type} (a : A) : M A := fun w => (a, w).

Definition bind {A B : Type} (m : M A) (k : A -> M B) : M B :=
  fun w => let (a, w') := m w in k a w'.

Declare Scope uxst_scope.
Delimit Scope uxst_scope with uxst.

Notation "x <- m ;; k" := (bind m (fun x => k))
  (at level 100, m at next level, right associativity) : uxst_scope.
Notation "m ;;; k" := (bind m (fun _ => k))
  (at level 100, right associativity) : uxst_scope.

Local Open Scope uxst_scope.

Definition get_errno : M errno := fun w => (w_errno w, w).

(** A system call: its answer is recorded and sets [errno]. *)
Definition syscall (env : Env) (c : call) : M reply :=
  fun w =>
    let r := env (map ev_call (w_trace w)) c in
    (r, {| w_trace := w_trace w ++ [Ev c r]; w_errno := r_errno r |}).

(** [errno] after a call that is not a system call, [e] being its value
    before: the one of the answer, or [e] when the answer has none (no
    function sets [errno] to zero).  The source reads [errno] after
    [qfprintf]: it reads what [socket()] left only if [qfprintf] left
    [errno] alone. *)
Definition errno_after (e : errno) (r : reply) : errno :=
  if errno_eqb (r_errno r) (E_other 0) then e else r_errno r.

(** A call to another part of the proxy.  It is recorded, and it may set
    [errno]. *)
Definition service (env : Env) (c : call) : M Z :=
  fun w =>
    let r := env (map ev_call (w_trace w)) c in
    (r_ret r, {| w_trace := w_trace w ++ [Ev c r];
                 w_errno := errno_after (w_errno w) r |}).

(** A call to a helper that is given the connection: the same, with the
    whole answer returned, for what the helper wrote in the connection. *)
Definition helper (env : Env) (c : call) : M reply :=
  fun w =>
    let r := env (map ev_call (w_trace w)) c in
    (r, {| w_trace := w_trace w ++ [Ev c r];
           w_errno := errno_after (w_errno w) r |}).

(** [if (b) m;] *)
Definition when {A : Type} (b : bool) (m : M A) : M unit :=
  if b then (m ;;; ret tt) else ret tt.

(** [b && m] and [m1 || m2] where the right operand makes calls: it is
    evaluated only when the left one does not decide. *)
Definition andM (b : bool) (m : M bool) : M bool :=
  if b then m else ret false.

Definition orM (m1 m2 : M bool) : M bool :=
  b <- m1 ;; if b then ret true else m2.

Definition world0 : world := {| w_trace := []; w_errno := E_other 0 |}.

(** C truth value of an [int]. *)
Definition truthy (z : Z) : bool := negb (z =? 0).

(** [%d] *)
Definition dec (z : Z) : string := NilZero.string_of_int (Z.to_int z).

(** The C string held by an array of bytes: the bytes before the first
    zero. *)
Fixpoint c_str (s : string) : string :=
  match s with
  | EmptyString => EmptyString
  | String c s' => if (c =? zero)%char then EmptyString else String c (c_str s')
  end.

(** [path[0]] as a truth value. *)
Definition first_byte (s : string) : bool :=
  match s with
  | EmptyString => false
  | String c _ => negb (c =? zero)%char
  end.

Definition strlen (s : string) : Z := Z.of_nat (String.length s).

(** What [snprintf(buf, n, ...)] leaves in [buf] when the full output is
    [s]: nothing is written when [n] is zero, at most [n - 1] characters
    otherwise; a negative [n] is a huge [size_t], that truncates nothing. *)
Definition snprintf (buf : string) (n : Z) (s : string) : string :=
  if n =? 0 then buf
  else if n <? 0 then s
  else substring 0 (Z.to_nat (n - 1)) s.

(* ===================================================================== *)
(** * Setters                                                             *)
(* ===================================================================== *)

Definition set_conn_flags (conn : connection) (f : Z) : connection :=
  {| conn_target := conn_target conn; conn_dst := conn_dst conn;
     conn_handle_fd := conn_handle_fd conn; conn_flags := f;
     conn_err_code := conn_err_code conn;
     conn_send_proxy_ofs := conn_send_proxy_ofs conn |}.

Definition set_conn_err_code (conn : connection) (e : co_er) : connection :=
  {| conn_target := conn_target conn; conn_dst := conn_dst conn;
     conn_handle_fd := conn_handle_fd conn; conn_flags := conn_flags conn;
     conn_err_code := e;
     conn_send_proxy_ofs := conn_send_proxy_ofs conn |}.

Definition set_conn_handle_fd (conn : connection) (fd : Z) : connection :=
  {| conn_target := conn_target conn; conn_dst := conn_dst conn;
     conn_handle_fd := fd; conn_flags := conn_flags conn;
     conn_err_code := conn_err_code conn;
     conn_send_proxy_ofs := conn_send_proxy_ofs conn |}.

(** [conn->flags |= f] and [conn->flags &= ~f] *)
Definition conn_flags_or (conn : connection) (f : Z) : connection :=
  set_conn_flags conn (Z.lor (conn_flags conn) f).

Definition conn_flags_clear (conn : connection) (f : Z) : connection :=
  set_conn_flags conn (Z.land (conn_flags conn) (Z.lnot f)).

(** What a helper leaves in [conn->err_code] and in [conn->handle.fd],
    [e] and [fd] being their values before the call. *)
Definition recorded_code (r : reply) (e : co_er) : co_er :=
  match r_code r with Some c => c | None => e end.

Definition recorded_fd (r : reply) (fd : Z) : Z :=
  match r_fd r with Some v => v | None => fd end.

(** The connection after a helper that recorded an error code, and after a
    helper that wrote the error code and the descriptor. *)
Definition conn_code_written (conn : connection) (r : reply) : connection :=
  set_conn_err_code conn (recorded_code r (conn_err_code conn)).

Definition conn_written (conn : connection) (r : reply) : connection :=
  set_conn_handle_fd (conn_code_written conn r)
    (recorded_fd r (conn_handle_fd conn)).

Definition set_li_fd (l : listener) (fd : Z) : listener :=
  {| li_state := li_state l; li_fd := fd; li_addr := li_addr l;
     li_options := li_options l; li_bind_conf := li_bind_conf l |}.

Definition set_li_state (l : listener) (s : Z) : listener :=
  {| li_state := s; li_fd := li_fd l; li_addr := li_addr l;
     li_options := li_options l; li_bind_conf := li_bind_conf l |}.

(* ===================================================================== *)
(** * The texts of the messages                                           *)
(* ===================================================================== *)

(** The string literals of the file, named.  A backslash followed by [n]
    is the newline of the C literal. *)

Definition msg_not_enough_sockets : string :=
  "socket(): not enough free sockets, raise -n argument".

Definition msg_cannot_nonblock : string :=
  "cannot make UNIX socket non-blocking".

Definition msg_cannot_listen_socket : string :=
  "cannot listen to socket".

Definition msg_cannot_bind : string :=
  "cannot bind UNIX socket".

Definition msg_cannot_chown : string :=
  "cannot change UNIX socket ownership".

Definition msg_cannot_listen : string :=
  "cannot listen to UNIX socket".

Definition msg_cannot_switch : string :=
  "cannot switch final and temporary UNIX sockets".

Definition msg_cannot_preserve : string :=
  "error when trying to preserve previous UNIX socket".

Definition msg_cannot_create : string :=
  "cannot create UNIX socket".

Definition fmt_cannot_get_socket : string :=
  "Cannot get a server socket.\n".

Definition fmt_system_fd_limit : string :=
  "Proxy %s reached system FD limit (maxsock=%d). Please check system tunables.\n".

Definition fmt_process_fd_limit : string :=
  "Proxy %s reached process FD limit (maxsock=%d). Please check 'ulimit-n' and restart.\n".

Definition fmt_system_memory_limit : string :=
  "Proxy %s reached system memory limit (maxsock=%d). Please check system tunables.\n".

Definition fmt_not_enough_sockets : string :=
  "socket(): not enough free sockets. Raise -n argument. Giving up.\n".

Definition fmt_cannot_nonblock : string :=
  "Cannot set client socket to non blocking mode.\n".

Definition fmt_cannot_cloexec : string :=
  "Cannot set CLOEXEC on client socket.\n".

Definition msg_check_backlog : string :=
  "can't connect to destination unix socket, check backlog size on the server".

Definition msg_address_in_use : string :=
  "local address already in use".

Definition fmt_connect_failed : string :=
  "Connect() failed for backend %s: %s.\n".

Definition msg_name_too_long : string :=
  "name too long for UNIX socket (limit usually 97)".

Definition msg_cannot_unlink : string :=
  "error when trying to unlink previous UNIX socket".

(* ===================================================================== *)
(** * The functions of proto_uxst.c                                       *)
(* ===================================================================== *)

Section Uxst.

Context {hd : headers}.
Variable global : globals.
Variable env : Env.

(** ** Listeners: [uxst_bind_listener] *)

(** The local variables of [uxst_bind_listener] that are live at its
    labels. *)
Record frame : Type := {
  f_listener : listener;
  f_errmsg : string;
  f_errlen : Z;
  f_ext : bool;
  f_path : string;
  f_tempname : string;
  f_backname : string;
  f_addr : string;
  f_fd : Z;
  f_err : Z;
  f_msg : option string
}.

(** [err |= bits; msg = m;] *)
Definition failing (f : frame) (bits : Z) (m : string) : frame :=
  {| f_listener := f_listener f; f_errmsg := f_errmsg f;
     f_errlen := f_errlen f; f_ext := f_ext f; f_path := f_path f;
     f_tempname := f_tempname f; f_backname := f_backname f;
     f_addr := f_addr f; f_fd := f_fd f;
     f_err := Z.lor (f_err f) bits; f_msg := Some m |}.

Definition with_fd (f : frame) (fd : Z) : frame :=
  {| f_listener := f_listener f; f_errmsg := f_errmsg f;
     f_errlen := f_errlen f; f_ext := f_ext f; f_path := f_path f;
     f_tempname := f_tempname f; f_backname := f_backname f;
     f_addr := f_addr f; f_fd := fd;
     f_err := f_err f; f_msg := f_msg f |}.

(** [!ext && path[0]] *)
Definition on_disk (f : frame) : bool := negb (f_ext f) && first_byte (f_path f).

(** The content of [errmsg] on return from label [err_return]. *)
Definition error_message (f : frame) : string :=
  match f_msg f with
  | Some msg =>
      if truthy (f_errlen f) then
        if negb (f_ext f) then
          snprintf (f_errmsg f) (f_errlen f)
            (msg ++ " [" ++ c_str (f_path f) ++ "]")
        else
          snprintf (f_errmsg f) (f_errlen f)
            (msg ++ " [fd " ++ dec (f_fd f) ++ "]")
      else f_errmsg f
  | None => f_errmsg f
  end.

(** Label [err_return]. *)
Definition err_return (f : frame) : M (Z * listener * string) :=
  ret (f_err f, f_listener f, error_message f).

(** Label [err_unlink_back]. *)
Definition err_unlink_back (f : frame) : M (Z * listener * string) :=
  when (on_disk f) (syscall env (sys_unlink (f_backname f))) ;;;
  err_return f.

(** Label [err_unlink_temp]. *)
Definition err_unlink_temp (f : frame) : M (Z * listener * string) :=
  when (on_disk f) (syscall env (sys_unlink (f_tempname f))) ;;;
  syscall env (sys_close (f_fd f)) ;;;
  err_unlink_back f.

(** Label [err_rename]. *)
Definition err_rename (f : frame) : M (Z * listener * string) :=
  r <- syscall env (sys_rename (f_backname f) (c_str (f_path f))) ;;
  e <- get_errno ;;
  when ((r_ret r <? 0) && errno_eqb e ENOENT)
       (syscall env (sys_unlink (c_str (f_path f)))) ;;;
  err_unlink_temp f.

(** From label [fd_ready] to the end of the function. *)
Definition fd_ready (f : frame) : M (Z * listener * string) :=
  let fd := f_fd f in
  let ext := f_ext f in
  let listener := f_listener f in
  if maxsock global <=? fd then
    err_unlink_temp (failing f (Z.lor ERR_FATAL ERR_ALERT)
      msg_not_enough_sockets)
  else
  r <- syscall env (sys_fcntl_nonblock fd) ;;
  if r_ret r =? -1 then
    err_unlink_temp (failing f (Z.lor ERR_FATAL ERR_ALERT)
      msg_cannot_nonblock)
  else
  c <- andM (negb ext)
         (r <- syscall env (sys_bind fd (f_addr f)) ;; ret (r_ret r <? 0)) ;;
  if c then
    e <- get_errno ;;
    if errno_eqb e EADDRINUSE then
      err_unlink_temp (failing f (Z.lor ERR_RETRYABLE ERR_ALERT)
        msg_cannot_listen_socket)
    else
      err_unlink_temp (failing f (Z.lor ERR_FATAL ERR_ALERT)
        msg_cannot_bind)
  else
  let bc := li_bind_conf listener in
  c <- andM (on_disk f)
         (orM (andM (negb (ux_uid bc =? -1) || negb (ux_gid bc =? -1))
                 (r <- syscall env
                         (sys_chown (f_tempname f) (ux_uid bc) (ux_gid bc)) ;;
                  ret (r_ret r =? -1)))
              (andM (negb (ux_mode bc =? 0))
                 (r <- syscall env (sys_chmod (f_tempname f) (ux_mode bc)) ;;
                  ret (r_ret r =? -1)))) ;;
  if c then
    err_unlink_temp (failing f (Z.lor ERR_FATAL ERR_ALERT)
      msg_cannot_chown)
  else
  r <- syscall env (sys_getsockopt_acceptconn fd) ;;
  let ready := if r_ret r =? -1 then 0 else r_out r in
  c <- andM (negb (ext && truthy ready))
         (backlog <- service env (hap_listener_backlog listener) ;;
          r <- syscall env (sys_listen fd backlog) ;;
          ret (r_ret r <? 0)) ;;
  if c then
    err_unlink_temp (failing f (Z.lor ERR_FATAL ERR_ALERT)
      msg_cannot_listen)
  else
  c <- andM (on_disk f)
         (r <- syscall env (sys_rename (f_tempname f) (c_str (f_path f))) ;;
          ret (r_ret r <? 0)) ;;
  if c then
    err_rename (failing f (Z.lor ERR_FATAL ERR_ALERT)
      msg_cannot_switch)
  else
  when (on_disk f) (syscall env (sys_unlink (f_backname f))) ;;;
  let listener := set_li_state (set_li_fd listener fd) LI_LISTEN in
  service env (hap_fd_insert fd (bind_thread (li_bind_conf listener))) ;;;
  when (negb (truthy (Z.land (li_options listener) LI_O_INHERITED)))
       (service env (hap_fdtab_exported fd)) ;;;
  ret (f_err f, listener, f_errmsg f).

(** [tempname] and [backname], as the two [snprintf] leave them. *)
Definition temp_name (path : string) : string :=
  snprintf "" (Z.min MAXPATHLEN sizeof_sun_path)
    (c_str path ++ "." ++ dec (pid global) ++ ".tmp").

Definition back_name (path : string) : string :=
  snprintf "" (Z.min MAXPATHLEN sizeof_sun_path)
    (c_str path ++ "." ++ dec (pid global) ++ ".bak").

(** [uxst_bind_listener(listener, errmsg, errlen)]: the result is the
    returned mask, the listener and the content of [errmsg] on return. *)
Definition uxst_bind_listener (l : listener) (errmsg : string)
    (errlen : Z) : M (Z * listener * string) :=
  let err := ERR_NONE in
  let errmsg := if truthy errlen then "" else errmsg in
  if negb (li_state l =? LI_ASSIGNED) then
    ret (ERR_NONE, l, errmsg)
  else
  listener <-
    (if li_fd l =? -1 then
       fd <- service env (hap_sock_find_compatible_fd l) ;;
       ret (set_li_fd l fd)
     else ret l) ;;
  let path := li_addr listener in
  let maxpathlen := Z.min MAXPATHLEN sizeof_sun_path in
  let fd := li_fd listener in
  let ext := 0 <=? fd in
  let f := {| f_listener := listener; f_errmsg := errmsg;
              f_errlen := errlen; f_ext := ext; f_path := path;
              f_tempname := ""; f_backname := ""; f_addr := "";
              f_fd := fd; f_err := err; f_msg := None |} in
  if ext then fd_ready f
  else
  f <-
    (if first_byte path then
       let tempname := temp_name path in
       let ret_ := strlen (c_str path ++ "." ++ dec (pid global) ++ ".tmp") in
       if (ret_ <? 0) || (sizeof_sun_path <=? ret_) then
         ret (inl (failing f (Z.lor ERR_FATAL ERR_ALERT) msg_name_too_long))
       else
       let backname := back_name path in
       let ret_ := strlen (c_str path ++ "." ++ dec (pid global) ++ ".bak") in
       if (ret_ <? 0) || (maxpathlen <=? ret_) then
         ret (inl (failing f (Z.lor ERR_FATAL ERR_ALERT) msg_name_too_long))
       else
       r <- syscall env (sys_unlink tempname) ;;
       e <- get_errno ;;
       if (r_ret r <? 0) && negb (errno_eqb e ENOENT) then
         ret (inl (failing f (Z.lor ERR_FATAL ERR_ALERT) msg_cannot_unlink))
       else
       r <- syscall env (sys_unlink backname) ;;
       e <- get_errno ;;
       if (r_ret r <? 0) && negb (errno_eqb e ENOENT) then
         ret (inl (failing f (Z.lor ERR_FATAL ERR_ALERT) msg_cannot_unlink))
       else
       r <- syscall env (sys_link (c_str path) backname) ;;
       e <- get_errno ;;
       if (r_ret r <? 0) && negb (errno_eqb e ENOENT) then
         ret (inl (failing f (Z.lor ERR_FATAL ERR_ALERT)
                     msg_cannot_preserve))
       else
       if sizeof_sun_path <=? strlen tempname then
         ret (inl (failing f (Z.lor ERR_FATAL ERR_ALERT) msg_name_too_long))
       else
       ret (inr {| f_listener := listener; f_errmsg := errmsg;
                   f_errlen := errlen; f_ext := ext; f_path := path;
                   f_tempname := tempname; f_backname := backname;
                   f_addr := substring 0 (Z.to_nat (sizeof_sun_path - 1))
                               tempname;
                   f_fd := fd; f_err := err; f_msg := None |})
     else
       ret (inr {| f_listener := listener; f_errmsg := errmsg;
                   f_errlen := errlen; f_ext := ext; f_path := path;
                   f_tempname := ""; f_backname := "";
                   f_addr := path;
                   f_fd := fd; f_err := err; f_msg := None |})) ;;
  match f with
  | inl f => err_return f
  | inr f =>
      r <- syscall env sys_socket ;;
      let f := with_fd f (r_ret r) in
      if r_ret r <? 0 then
        err_unlink_back (failing f (Z.lor ERR_FATAL ERR_ALERT)
          msg_cannot_create)
      else fd_ready f
  end.

(** ** Listeners: unbind, add, pause *)

(** Modelled from the spec: [do_unbind_listener] of listener.c, which is
    not part of the file.  "Releases the descriptor and associated
    event-subsystem registration when the listener state exceeds ASSIGNED;
    returns the listener to ASSIGNED; unbinding a never-bound listener is a
    no-op."  The descriptor is released when [do_close] is set. *)
Definition do_unbind_listener (l : listener) (do_close : Z) : M listener :=
  if LI_ASSIGNED <? li_state l then
    if truthy do_close then
      service env (hap_fd_delete (li_fd l)) ;;;
      ret (set_li_state (set_li_fd l (-1)) LI_ASSIGNED)
    else ret (set_li_state l LI_ASSIGNED)
  else ret l.

(** Modelled from the spec: [unbind_listener] of listener.c, of which
    [do_unbind_listener] is the lockless version. *)
Definition unbind_listener (l : listener) : M listener :=
  do_unbind_listener l 1.

Definition uxst_unbind_listener (l : listener) : M (Z * listener) :=
  l <- (if LI_ASSIGNED <? li_state l then unbind_listener l else ret l) ;;
  ret (ERR_NONE, l).

(** [uxst_add_listener(listener, port)] on [proto_unix]: the protocol and
    the listener after the call. *)
Definition uxst_add_listener (proto_unix : protocol) (l : listener)
    (port : Z) : protocol * listener :=
  if negb (li_state l =? LI_INIT) then (proto_unix, l)
  else
    let l := set_li_state l LI_ASSIGNED in
    ({| listeners := listeners proto_unix ++ [l];
        nb_listeners := nb_listeners proto_unix + 1 |}, l).

Definition uxst_pause_listener (l : listener) : M (Z * listener) :=
  if first_byte (li_addr l) then ret (1, l)
  else
    l <- do_unbind_listener l 1 ;;
    ret (0, l).

(** ** Outgoing connections: [uxst_connect_server] *)

(** [conn_ctrl_init], [conn_xprt_init] and [conn_full_close] are given the
    connection by pointer and are not part of the file.  A
    [conn_xprt_init] that fails can record its error code in the
    connection, and [conn_full_close] can write the error code and
    [handle.fd]: what they write is in their answers.  They are taken to
    leave alone the flags, which the source tests at line 509 after
    [conn_ctrl_init], and [conn_ctrl_init] and a [conn_xprt_init] that
    succeeds to leave alone the fields that the file uses. *)
Definition uxst_connect_server (conn : connection) (flags : Z)
    : M (sf_err * connection) :=
  match
    match conn_target conn with
    | OBJ_TYPE_PROXY px => Some px
    | OBJ_TYPE_SERVER srv => Some (srv_proxy srv)
    | OBJ_TYPE_other => None
    end
  with
  | None => ret (SF_ERR_INTERNAL, conn_flags_or conn CO_FL_ERROR)
  | Some be =>
  r <- syscall env sys_socket ;;
  let fd := r_ret r in
  let conn := set_conn_handle_fd conn fd in
  if fd =? -1 then
    service env (hap_qfprintf fmt_cannot_get_socket []) ;;;
    e <- get_errno ;;
    conn <-
      (if errno_eqb e ENFILE then
         service env (hap_send_log be LOG_EMERG
           fmt_system_fd_limit
           [arg_s (id be); arg_d (maxsock global)]) ;;;
         ret (set_conn_err_code conn CO_ER_SYS_FDLIM)
       else if errno_eqb e EMFILE then
         service env (hap_send_log be LOG_EMERG
           fmt_process_fd_limit
           [arg_s (id be); arg_d (maxsock global)]) ;;;
         ret (set_conn_err_code conn CO_ER_PROC_FDLIM)
       else if errno_eqb e ENOBUFS || errno_eqb e ENOMEM then
         service env (hap_send_log be LOG_EMERG
           fmt_system_memory_limit
           [arg_s (id be); arg_d (maxsock global)]) ;;;
         ret (set_conn_err_code conn CO_ER_SYS_MEMLIM)
       else if errno_eqb e EAFNOSUPPORT || errno_eqb e EPROTONOSUPPORT then
         ret (set_conn_err_code conn CO_ER_NOPROTO)
       else
         ret (set_conn_err_code conn CO_ER_SOCK_ERR)) ;;
    ret (SF_ERR_RESOURCE, conn_flags_or conn CO_FL_ERROR)
  else
  if maxsock global <=? fd then
    service env (hap_ha_alert
      fmt_not_enough_sockets) ;;;
    syscall env (sys_close fd) ;;;
    let conn := set_conn_err_code conn CO_ER_CONF_FDLIM in
    ret (SF_ERR_PRXCOND, conn_flags_or conn CO_FL_ERROR)
  else
  r <- syscall env (sys_fcntl_nonblock fd) ;;
  if r_ret r =? -1 then
    service env (hap_qfprintf
      fmt_cannot_nonblock []) ;;;
    syscall env (sys_close fd) ;;;
    let conn := set_conn_err_code conn CO_ER_SOCK_ERR in
    ret (SF_ERR_INTERNAL, conn_flags_or conn CO_FL_ERROR)
  else
  c <- andM (master global =? 1)
         (r <- syscall env (sys_fcntl_cloexec fd) ;; ret (r_ret r =? -1)) ;;
  if c then
    service env (hap_ha_alert fmt_cannot_cloexec) ;;;
    syscall env (sys_close fd) ;;;
    let conn := set_conn_err_code conn CO_ER_SOCK_ERR in
    ret (SF_ERR_INTERNAL, conn_flags_or conn CO_FL_ERROR)
  else
  let flags :=
    if truthy (conn_send_proxy_ofs conn) then Z.lor flags CONNECT_HAS_DATA
    else flags in
  when (truthy (tune_server_sndbuf global))
       (syscall env (sys_setsockopt_sndbuf fd (tune_server_sndbuf global))) ;;;
  when (truthy (tune_server_rcvbuf global))
       (syscall env (sys_setsockopt_rcvbuf fd (tune_server_rcvbuf global))) ;;;
  (* lines 500 to 521, after the classification of connect() *)
  let connected := fun conn : connection =>
    let conn := conn_flags_or conn CO_FL_ADDR_TO_SET in
    let conn :=
      if truthy (conn_send_proxy_ofs conn)
      then conn_flags_or conn CO_FL_SEND_PROXY else conn in
    service env (hap_conn_ctrl_init fd) ;;;
    service env (hap_fdtab_linger_risk fd 0) ;;;
    when (truthy (Z.land (conn_flags conn) CO_FL_WAIT_L4_CONN))
         (service env (hap_fd_want_send fd) ;;;
          service env (hap_fd_cant_send fd) ;;;
          service env (hap_fd_cant_recv fd)) ;;;
    x <- helper env (hap_conn_xprt_init fd) ;;
    if r_ret x <? 0 then
      let conn := conn_code_written conn x in
      c <- helper env (hap_conn_full_close fd) ;;
      let conn := conn_written conn c in
      ret (SF_ERR_RESOURCE, conn_flags_or conn CO_FL_ERROR)
    else
      ret (SF_ERR_NONE, conn) in
  r <- syscall env (sys_connect fd (conn_dst conn)) ;;
  if r_ret r =? -1 then
    e <- get_errno ;;
    if errno_eqb e EINPROGRESS || errno_eqb e EALREADY then
      connected (conn_flags_or conn CO_FL_WAIT_L4_CONN)
    else if errno_eqb e EISCONN then
      connected (conn_flags_clear conn CO_FL_WAIT_L4_CONN)
    else if errno_eqb e EAGAIN || errno_eqb e EADDRINUSE || errno_eqb e EADDRNOTAVAIL then
      let msg_code :=
        if errno_eqb e EAGAIN || errno_eqb e EADDRNOTAVAIL then
          (msg_check_backlog,
           CO_ER_FREE_PORTS)
        else
          (msg_address_in_use, CO_ER_ADDR_INUSE) in
      let conn := set_conn_err_code conn (snd msg_code) in
      service env (hap_qfprintf fmt_connect_failed
                     [arg_s (id be); arg_s (fst msg_code)]) ;;;
      syscall env (sys_close fd) ;;;
      service env (hap_send_log be LOG_ERR
                     fmt_connect_failed
                     [arg_s (id be); arg_s (fst msg_code)]) ;;;
      ret (SF_ERR_RESOURCE, conn_flags_or conn CO_FL_ERROR)
    else if errno_eqb e ETIMEDOUT then
      syscall env (sys_close fd) ;;;
      let conn := set_conn_err_code conn CO_ER_SOCK_ERR in
      ret (SF_ERR_SRVTO, conn_flags_or conn CO_FL_ERROR)
    else
      syscall env (sys_close fd) ;;;
      let conn := set_conn_err_code conn CO_ER_SOCK_ERR in
      ret (SF_ERR_SRVCL, conn_flags_or conn CO_FL_ERROR)
  else
    connected (conn_flags_clear conn CO_FL_WAIT_L4_CONN)
  end.

(** ** The protocol: [uxst_bind_listeners], [uxst_unbind_listeners] *)

(** The loop of [uxst_bind_listeners] over the listeners that remain, [err]
    being the mask accumulated so far. *)
Fixpoint bind_each (ls : list listener) (err : Z) (errmsg : string)
    (errlen : Z) : M (Z * list listener * string) :=
  match ls with
  | [] => ret (err, [], errmsg)
  | l :: rest =>
      x <- uxst_bind_listener l errmsg errlen ;;
      let '(e, l', errmsg') := x in
      let err := Z.lor err e in
      if truthy (Z.land err ERR_ABORT) then ret (err, l' :: rest, errmsg')
      else
        y <- bind_each rest err errmsg' errlen ;;
        let '(err', rest', errmsg'') := y in
        ret (err', l' :: rest', errmsg'')
  end.

Definition uxst_bind_listeners (proto : protocol) (errmsg : string)
    (errlen : Z) : M (Z * protocol * string) :=
  let err := ERR_NONE in
  x <- bind_each (listeners proto) err errmsg errlen ;;
  let '(err, ls, errmsg) := x in
  ret (err, {| listeners := ls; nb_listeners := nb_listeners proto |}, errmsg).

(** The loop of [uxst_unbind_listeners]. *)
Fixpoint unbind_each (ls : list listener) : M (list listener) :=
  match ls with
  | [] => ret []
  | l :: rest =>
      x <- uxst_unbind_listener l ;;
      rest' <- unbind_each rest ;;
      ret (snd x :: rest')
  end.

Definition uxst_unbind_listeners (proto : protocol) : M (Z * protocol) :=
  ls <- unbind_each (listeners proto) ;;
  ret (ERR_NONE, {| listeners := ls; nb_listeners := nb_listeners proto |}).

End Uxst.

(* ===================================================================== *)
(** * Reading a run                                                       *)
(* ===================================================================== *)

(** The calls of a run, in order. *)
Definition calls (w : world) : list call := map ev_call (w_trace w).

(** [m & f], as a C condition. *)
Definition has_flag (m f : Z) : Prop := Z.land m f <> 0.

Definition is_send_log (c : call) : bool :=
  match c with hap_send_log _ _ _ _ => true | _ => false end.

(** The calls that release a descriptor: [close()], and the full close of
    the connection that owns it. *)
Definition is_close (c : call) : bool :=
  match c with sys_close _ | hap_conn_full_close _ => true | _ => false end.


Definition is_hint (c : call) : bool :=
  match c with
  | hap_fd_want_send _ | hap_fd_cant_send _ | hap_fd_cant_recv _ => true
  | _ => false
  end.

(** The function that a call invokes, as a number. *)
Definition call_tag (c : call) : nat :=
  match c with
  | sys_socket => 0 | sys_close _ => 1 | sys_unlink _ => 2
  | sys_link _ _ => 3 | sys_rename _ _ => 4 | sys_fcntl_nonblock _ => 5
  | sys_fcntl_cloexec _ => 6 | sys_bind _ _ => 7 | sys_chown _ _ _ => 8
  | sys_chmod _ _ => 9 | sys_getsockopt_acceptconn _ => 10
  | sys_listen _ _ => 11 | sys_setsockopt_sndbuf _ _ => 12
  | sys_setsockopt_rcvbuf _ _ => 13 | sys_connect _ _ => 14
  | hap_qfprintf _ _ => 15 | hap_ha_alert _ => 16
  | hap_send_log _ _ _ _ => 17 | hap_sock_find_compatible_fd _ => 18
  | hap_listener_backlog _ => 19 | hap_fd_insert _ _ => 20
  | hap_fdtab_exported _ => 21 | hap_fdtab_linger_risk _ _ => 22
  | hap_conn_ctrl_init _ => 23 | hap_fd_want_send _ => 24
  | hap_fd_cant_send _ => 25 | hap_fd_cant_recv _ => 26
  | hap_conn_xprt_init _ => 27 | hap_conn_full_close _ => 28
  | hap_fd_delete _ => 29
  end%nat.

(** The events of a trace that invoke the same function as [c]. *)
Definition same_call (c : call) (tr : list event) : list event :=
  filter (fun e => Nat.eqb (call_tag (ev_call e)) (call_tag c)) tr.

(** A reference instance of the headers: the sizes of Linux and the
    values of the proxy's headers.  It shows that the facts asked of the
    constants hold together, and the examples run on it. *)
#[refine] Instance linux_headers : headers := {|
  MAXPATHLEN := 4096; sizeof_sun_path := 108;
  ERR_NONE := 0; ERR_RETRYABLE := 1; ERR_FATAL := 2; ERR_ABORT := 4;
  ERR_ALERT := 16;
  CO_FL_ERROR := 1048576; CO_FL_WAIT_L4_CONN := 4194304;
  CO_FL_ADDR_TO_SET := 8192; CO_FL_SEND_PROXY := 16777216;
  CONNECT_HAS_DATA := 1;
  LI_INIT := 1; LI_ASSIGNED := 2; LI_LISTEN := 5; LI_O_INHERITED := 1024
|}.
Proof. all: vm_compute; congruence. Defined.

(** Answers of an environment: success with a value, failure with an
    error number. *)
Definition answer (z : Z) : reply :=
  {| r_ret := z; r_errno := E_other 0; r_out := 0;
     r_fd := None; r_code := None |}.

Definition failure (e : errno) : reply :=
  {| r_ret := -1; r_errno := e; r_out := 0;
     r_fd := None; r_code := None |}.

(** The unwinding of a failed [uxst_bind_listener], in the words of the
    specification: unlink the temporary file, close the descriptor, unlink
    the backup file, each of them if need be. *)
Definition unwinding (tempname backname : string) (fd : Z)
    (temp desc back : bool) : list call :=
  (if temp then [sys_unlink tempname] else []) ++
  (if desc then [sys_close fd] else []) ++
  (if back then [sys_unlink backname] else []).

(** [uxst_bind_listener] invoked on the listeners [ls] in list order, from
    the world [w] and with [errmsg] holding [m]: the results, and the world
    at the end. *)
Inductive bind_in_order {hd : headers} (global : globals) (env : Env)
    (errlen : Z)
    : world -> string -> list listener -> list (Z * listener * string) ->
      world -> Prop :=
| bind_in_order_nil (w : world) (m : string) :
    bind_in_order global env errlen w m [] [] w
| bind_in_order_cons (w w1 w2 : world) (m : string) (l : listener)
    (ls : list listener) (out : Z * listener * string)
    (outs : list (Z * listener * string)) :
    uxst_bind_listener global env l m errlen w = (out, w1) ->
    bind_in_order global env errlen w1 (snd out) ls outs w2 ->
    bind_in_order global env errlen w m (l :: ls) (out :: outs) w2.

(** [uxst_unbind_listener] invoked on the listeners [ls] in list order,
    from the world [w]: the listeners after the calls, and the world at the
    end. *)
Inductive unbind_in_order {hd : headers} (env : Env)
    : world -> list listener -> list listener -> world -> Prop :=
| unbind_in_order_nil (w : world) : unbind_in_order env w [] [] w
| unbind_in_order_cons (w w1 w2 : world) (l l' : listener)
    (ls ls' : list listener) :
    uxst_unbind_listener env l w = (ERR_NONE, l', w1) ->
    unbind_in_order env w1 ls ls' w2 ->
    unbind_in_order env w (l :: ls) (l' :: ls') w2.

(** The masks of some results of [uxst_bind_listener], combined with
    bitwise OR into [acc]. *)
Definition accumulate (acc : Z) (outs : list (Z * listener * string)) : Z :=
  fold_left Z.lor (map (fun o => fst (fst o)) outs) acc.

(** The static reason texts of [uxst_bind_listener]. *)
Definition bind_reasons : list string :=
  [msg_name_too_long; msg_cannot_unlink; msg_cannot_preserve;
   msg_cannot_create; msg_not_enough_sockets; msg_cannot_nonblock;
   msg_cannot_listen_socket; msg_cannot_bind; msg_cannot_chown;
   msg_cannot_listen; msg_cannot_switch].

(** The restoration of the backup after a failed switch: the backup is
    renamed to the live path and, when this fails because the backup is
    gone, the live path is unlinked. *)
Definition restoring (path backname : string) (restore : list event)
    : Prop :=
  exists r rest,
    restore = Ev (sys_rename backname path) r :: rest /\
    map ev_call rest =
      if (r_ret r <? 0) && errno_eqb (r_errno r) ENOENT
      then [sys_unlink path] else [].

(** The error code that goes with the error number of a failed
    [socket()], as the specification lists them. *)
Definition socket_err_code (e : errno) : co_er :=
  match e with
  | ENFILE => CO_ER_SYS_FDLIM
  | EMFILE => CO_ER_PROC_FDLIM
  | ENOBUFS | ENOMEM => CO_ER_SYS_MEMLIM
  | EAFNOSUPPORT | EPROTONOSUPPORT => CO_ER_NOPROTO
  | _ => CO_ER_SOCK_ERR
  end.

(** The error numbers of a failed [socket()] for which a log is sent. *)
Definition socket_errno_logged (e : errno) : bool :=
  match e with
  | ENFILE | EMFILE | ENOBUFS | ENOMEM => true
  | _ => false
  end.

(** The calls that act on an entry of the file system through its name. *)
Definition on_file_system (c : call) : bool :=
  match c with
  | sys_unlink _ | sys_link _ _ | sys_rename _ _
  | sys_chown _ _ _ | sys_chmod _ _ => true
  | _ => false
  end.

(** The descriptor on which a call acts, if it acts on one. *)
Definition call_fd (c : call) : option Z :=
  match c with
  | sys_close fd | sys_fcntl_nonblock fd | sys_fcntl_cloexec fd
  | sys_bind fd _ | sys_getsockopt_acceptconn fd | sys_listen fd _
  | sys_setsockopt_sndbuf fd _ | sys_setsockopt_rcvbuf fd _
  | sys_connect fd _ | hap_fd_insert fd _ | hap_fdtab_exported fd
  | hap_fdtab_linger_risk fd _ | hap_conn_ctrl_init fd
  | hap_fd_want_send fd | hap_fd_cant_send fd | hap_fd_cant_recv fd
  | hap_conn_xprt_init fd | hap_conn_full_close fd | hap_fd_delete fd =>
      Some fd
  | _ => None
  end.

(** [proto_unix] as its initialiser leaves it: no listener. *)
Definition proto_unix : protocol := {| listeners := []; nb_listeners := 0 |}.

(** [nb_listeners] is the number of the listeners of the protocol. *)
Definition counted (p : protocol) : Prop :=
  nb_listeners p = Z.of_nat (length (listeners p)).

(** The backend of a connection, as [uxst_connect_server] finds it: the
    proxy that is its target, or the proxy of the server that is its
    target. *)
Definition conn_backend (conn : connection) : option proxy :=
  match conn_target conn with
  | OBJ_TYPE_PROXY px => Some px
  | OBJ_TYPE_SERVER srv => Some (srv_proxy srv)
  | OBJ_TYPE_other => None
  end.

(** What makes [uxst_bind_listener] give up with each of its reason texts,
    read on the trace [tr] of the run: the test before each [msg = ...] of
    the source. *)
Inductive bind_cause {hd : headers} (global : globals) (l : listener)
    (tr : list event) : string -> Prop :=
| cause_name_too_long :
    first_byte (li_addr l) = true ->
    Z.min MAXPATHLEN sizeof_sun_path <=
      strlen (c_str (li_addr l) ++ "." ++ dec (pid global) ++ ".tmp") ->
    (forall c, In c (map ev_call tr) -> c = hap_sock_find_compatible_fd l) ->
    bind_cause global l tr msg_name_too_long
| cause_unlink (pre : list event) (p : string) (r : reply) :
    tr = (pre ++ [Ev (sys_unlink p) r])%list ->
    r_ret r < 0 -> r_errno r <> ENOENT ->
    bind_cause global l tr msg_cannot_unlink
| cause_link (pre : list event) (o n : string) (r : reply) :
    tr = (pre ++ [Ev (sys_link o n) r])%list ->
    r_ret r < 0 -> r_errno r <> ENOENT ->
    bind_cause global l tr msg_cannot_preserve
| cause_socket (r : reply) :
    In (Ev sys_socket r) tr -> r_ret r < 0 ->
    bind_cause global l tr msg_cannot_create
| cause_maxsock (fd : Z) :
    In (sys_close fd) (map ev_call tr) -> maxsock global <= fd ->
    (forall fd', ~ In (sys_fcntl_nonblock fd') (map ev_call tr)) ->
    bind_cause global l tr msg_not_enough_sockets
| cause_nonblock (fd : Z) (r : reply) :
    In (Ev (sys_fcntl_nonblock fd) r) tr -> r_ret r = -1 ->
    bind_cause global l tr msg_cannot_nonblock
| cause_bind_in_use (fd : Z) (addr : string) (r : reply) :
    In (Ev (sys_bind fd addr) r) tr -> r_ret r < 0 ->
    r_errno r = EADDRINUSE ->
    bind_cause global l tr msg_cannot_listen_socket
| cause_bind (fd : Z) (addr : string) (r : reply) :
    In (Ev (sys_bind fd addr) r) tr -> r_ret r < 0 ->
    r_errno r <> EADDRINUSE ->
    bind_cause global l tr msg_cannot_bind
| cause_chown (p : string) (uid gid : Z) (r : reply) :
    In (Ev (sys_chown p uid gid) r) tr -> r_ret r = -1 ->
    bind_cause global l tr msg_cannot_chown
| cause_chmod (p : string) (mode : Z) (r : reply) :
    In (Ev (sys_chmod p mode) r) tr -> r_ret r = -1 ->
    bind_cause global l tr msg_cannot_chown
| cause_listen (fd backlog : Z) (r : reply) :
    In (Ev (sys_listen fd backlog) r) tr -> r_ret r < 0 ->
    bind_cause global l tr msg_cannot_listen
| cause_rename (pre post : list event) (o n : string) (r : reply) :
    tr = (pre ++ Ev (sys_rename o n) r :: post)%list ->
    (forall o' n', ~ In (sys_rename o' n') (map ev_call pre)) ->
    r_ret r < 0 ->
    bind_cause global l tr msg_cannot_switch.

(** The text of the log that goes with the error number of a failed
    [socket()], for the error numbers that are logged. *)
Definition socket_log_format (e : errno) : string :=
  match e with
  | ENFILE => fmt_system_fd_limit
  | EMFILE => fmt_process_fd_limit
  | _ => fmt_system_memory_limit
  end.

(** [wp m w Q]: the run of [m] from the world [w] ends with a result and
    in a world that satisfy [Q]. *)
Definition wp {A : Type} (m : M A) (w : world) (Q : A -> world -> Prop)
    : Prop :=
  Q (fst (m w)) (snd (m w)).

(* ===================================================================== *)
(** * Concrete inputs                                                     *)
(* ===================================================================== *)

Definition globals0 : globals :=
  {| maxsock := 100; tune_server_sndbuf := 0; tune_server_rcvbuf := 0;
     pid := 4242; master := 0 |}.

Definition backend0 : proxy := {| id := "be1" |}.

Definition conn0 : connection :=
  {| conn_target := OBJ_TYPE_PROXY backend0; conn_dst := "/run/app.sock";
     conn_handle_fd := -1; conn_flags := 0; conn_err_code := CO_ER_NONE;
     conn_send_proxy_ofs := 0 |}.


Definition bind_conf0 : bind_conf :=
  {| ux_uid := -1; ux_gid := -1; ux_mode := 0; bind_thread := 0 |}.

(** A listener on a path, assigned ([LI_ASSIGNED] is 2 in the reference
    instance) and without descriptor; the same after a bind ([LI_LISTEN] is
    5); and a bound listener on an abstract name. *)
Definition listener0 : listener :=
  {| li_state := 2; li_fd := -1; li_addr := "/run/hap.sock";
     li_options := 0; li_bind_conf := bind_conf0 |}.

Definition listener_bound : listener :=
  {| li_state := 5; li_fd := 7; li_addr := "/run/hap.sock";
     li_options := 0; li_bind_conf := bind_conf0 |}.

Definition listener_abstract : listener :=
  {| li_state := 5; li_fd := 8;
     li_addr := String zero "hap";
     li_options := 0; li_bind_conf := bind_conf0 |}.

Definition proto0 : protocol :=
  {| listeners := [listener_bound; listener0]; nb_listeners := 2 |}.

(** The environment of a bind: no descriptor is inherited, [socket()]
    returns 7, the backlog is 128, [bind()] answers [rb], every [rename()]
    answers [rr] and every other call returns 0. *)
Definition env_bind (rb rr : reply) : Env :=
  fun _ c =>
    match c with
    | hap_sock_find_compatible_fd _ => answer (-1)
    | sys_socket => answer 7
    | hap_listener_backlog _ => answer 128
    | sys_bind _ _ => rb
    | sys_rename _ _ => rr
    | _ => answer 0
    end.

(** The environment in which [socket()] answers [r] and every other call
    returns 0. *)
Definition env_socket (r : reply) : Env :=
  fun _ c => match c with sys_socket => r | _ => answer 0 end.

(** The environment in which [socket()] returns 7, [connect()] answers [r]
    and every other call returns 0. *)
Definition env_connect (r : reply) : Env :=
  fun _ c =>
    match c with
    | sys_socket => answer 7
    | sys_connect _ _ => r
    | _ => answer 0
    end.

(** An assigned listener whose descriptor was supplied, a listener that
    was not added yet ([LI_INIT] is 1 in the reference instance), and a
    protocol whose second listener is bound already. *)
Definition listener_supplied : listener :=
  {| li_state := 2; li_fd := 5; li_addr := "/run/hap.sock";
     li_options := 0; li_bind_conf := bind_conf0 |}.

Definition listener_init : listener :=
  {| li_state := 1; li_fd := -1; li_addr := "/run/hap.sock";
     li_options := 0; li_bind_conf := bind_conf0 |}.

Definition proto1 : protocol :=
  {| listeners := [listener0; listener_bound]; nb_listeners := 2 |}.

(* ===================================================================== *)
(** * Running the code in a proof                                         *)
(* ===================================================================== *)

Lemma In_same_call (c : call) (r : reply) (tr : list event) :
  In (Ev c r) tr -> In (Ev c r) (same_call c tr).
Proof.
  intros H. apply filter_In. split; [exact H|]. apply Nat.eqb_refl.
Qed.

Lemma In_same_call_app (c : call) (r : reply) (tr suffix : list event) :
  In (Ev c r) (tr ++ suffix) ->
  In (Ev c r) (same_call c tr) \/ In c (map ev_call suffix).
Proof.
  intros H. apply in_app_or in H. destruct H as [H | H].
  - left. now apply In_same_call.
  - right. change c with (ev_call (Ev c r)). now apply in_map.
Qed.

Lemma errno_eqb_eq (a b : errno) : errno_eqb a b = true <-> a = b.
Proof.
  split.
  - destruct a, b; cbn; intros H; try discriminate H; try reflexivity.
    apply Z.eqb_eq in H. now subst.
  - intros <-. destruct a; cbn; try reflexivity. apply Z.eqb_refl.
Qed.

Lemma errno_eqb_neq (a b : errno) : errno_eqb a b = false <-> a <> b.
Proof.
  rewrite <- errno_eqb_eq. destruct (errno_eqb a b); split; congruence.
Qed.

Ltac bool_facts :=
  repeat match goal with
  | H : errno_eqb _ _ = true |- _ => apply errno_eqb_eq in H
  | H : errno_eqb _ _ = false |- _ => apply errno_eqb_neq in H
  | H : (_ =? _) = true |- _ => apply Z.eqb_eq in H
  | H : (_ =? _) = false |- _ => apply Z.eqb_neq in H
  | H : (_ <=? _) = true |- _ => apply Z.leb_le in H
  | H : (_ <=? _) = false |- _ => apply Z.leb_gt in H
  | H : (_ <? _) = true |- _ => apply Z.ltb_lt in H
  | H : (_ <? _) = false |- _ => apply Z.ltb_ge in H
  | H : (_ || _) = true |- _ => apply orb_true_iff in H
  | H : (_ || _) = false |- _ => apply orb_false_iff in H; destruct H
  | H : (_ && _) = true |- _ => apply andb_true_iff in H; destruct H
  | H : (_ && _) = false |- _ => apply andb_false_iff in H
  | H : negb _ = true |- _ => apply negb_true_iff in H
  | H : negb _ = false |- _ => apply negb_false_iff in H
  end.

Lemma wp_run {A : Type} (m : M A) (w : world) (Q : A -> world -> Prop)
    (a : A) (w' : world) :
  wp m w Q -> m w = (a, w') -> Q a w'.
Proof. unfold wp. intros H E. now rewrite E in H. Qed.

Lemma wp_run2 {A B : Type} (m : M (A * B)) (w : world)
    (Q : A -> B -> world -> Prop) (a : A) (b : B) (w' : world) :
  wp m w (fun x w' => Q (fst x) (snd x) w') -> m w = (a, b, w') -> Q a b w'.
Proof. unfold wp. intros H E. now rewrite E in H. Qed.

Lemma wp_run3 {A B C : Type} (m : M (A * B * C)) (w : world)
    (Q : A -> B -> C -> world -> Prop) (a : A) (b : B) (c : C) (w' : world) :
  wp m w (fun x w' => Q (fst (fst x)) (snd (fst x)) (snd x) w') ->
  m w = (a, b, c, w') -> Q a b c w'.
Proof. unfold wp. intros H E. now rewrite E in H. Qed.

(** Turns a goal on the result of the run [H : m w = (.., w')] into a goal
    on the run of [m]. *)
Ltac by_wp H :=
  lazymatch type of H with
  | ?m ?w = (?a, ?b, ?c, ?w') =>
      pattern a, b, c, w';
      lazymatch goal with
      | |- ?Q a b c w' => refine (@wp_run3 _ _ _ m w Q a b c w' _ H)
      end
  | ?m ?w = (?a, ?b, ?w') =>
      pattern a, b, w';
      lazymatch goal with
      | |- ?Q a b w' => refine (@wp_run2 _ _ m w Q a b w' _ H)
      end
  end; clear H;
  lazymatch goal with
  | |- wp _ _ ?Q => let post := fresh "post" in set (post := Q)
  end.

(** Inlines the local definitions of the code and reads the fields of the
    records it builds. *)
Ltac read_fields :=
  cbn [conn_target conn_dst conn_handle_fd conn_flags
       conn_err_code conn_send_proxy_ofs
       set_conn_flags set_conn_err_code set_conn_handle_fd
       conn_flags_or conn_flags_clear conn_code_written conn_written
       li_state li_fd li_addr li_options li_bind_conf
       set_li_fd set_li_state
       f_listener f_errmsg f_errlen f_ext f_path f_tempname f_backname
       f_addr f_fd f_err f_msg failing with_fd on_disk
       negb andb orb fst snd].

Ltac read_fields_in H :=
  cbn [conn_target conn_dst conn_handle_fd conn_flags
       conn_err_code conn_send_proxy_ofs
       set_conn_flags set_conn_err_code set_conn_handle_fd
       conn_flags_or conn_flags_clear conn_code_written conn_written
       li_state li_fd li_addr li_options li_bind_conf
       set_li_fd set_li_state
       f_listener f_errmsg f_errlen f_ext f_path f_tempname f_backname
       f_addr f_fd f_err f_msg failing with_fd on_disk
       negb andb orb fst snd unwinding app] in H.

(** The same, with the tests already decided. *)
Ltac settle_in H :=
  read_fields_in H;
  repeat match goal with
  | E : _ = true |- _ => rewrite E in H
  | E : _ = false |- _ => rewrite E in H
  end;
  read_fields_in H.

Ltac wp_prepare := cbv beta zeta; read_fields.

(** At the end of a run: back to the property to prove. *)
Ltac wp_done :=
  lazymatch goal with
  | post := _ |- _ => subst post; cbv beta; read_fields
  end.

Lemma wp_ret {A : Type} (a : A) (w : world) (Q : A -> world -> Prop) :
  Q a w -> wp (ret a) w Q.
Proof. trivial. Qed.

Lemma wp_bind {A B : Type} (m : M A) (k : A -> M B) (w : world)
    (Q : B -> world -> Prop) :
  wp m w (fun a w' => wp (k a) w' Q) -> wp (bind m k) w Q.
Proof. unfold wp, bind. now destruct (m w). Qed.

Lemma wp_get_errno (tr : list event) (e : errno)
    (Q : errno -> world -> Prop) :
  Q e {| w_trace := tr; w_errno := e |} ->
  wp get_errno {| w_trace := tr; w_errno := e |} Q.
Proof. trivial. Qed.

Lemma wp_syscall (env : Env) (c : call) (tr : list event) (e : errno)
    (Q : reply -> world -> Prop) :
  (forall r, Q r {| w_trace := tr ++ [Ev c r]; w_errno := r_errno r |}) ->
  wp (syscall env c) {| w_trace := tr; w_errno := e |} Q.
Proof. intros H. apply H. Qed.

Lemma wp_service (env : Env) (c : call) (tr : list event) (e : errno)
    (Q : Z -> world -> Prop) :
  (forall r, Q (r_ret r) {| w_trace := tr ++ [Ev c r];
                            w_errno := errno_after e r |}) ->
  wp (service env c) {| w_trace := tr; w_errno := e |} Q.
Proof. intros H. apply H. Qed.

Lemma wp_helper (env : Env) (c : call) (tr : list event) (e : errno)
    (Q : reply -> world -> Prop) :
  (forall r, Q r {| w_trace := tr ++ [Ev c r];
                    w_errno := errno_after e r |}) ->
  wp (helper env c) {| w_trace := tr; w_errno := e |} Q.
Proof. intros H. apply H. Qed.

Lemma wp_when_true {A : Type} (m : M A) (w : world)
    (Q : unit -> world -> Prop) :
  wp m w (fun _ w' => Q tt w') -> wp (when true m) w Q.
Proof. unfold when. intros H. apply wp_bind. exact H. Qed.

Lemma wp_when_false {A : Type} (m : M A) (w : world)
    (Q : unit -> world -> Prop) :
  Q tt w -> wp (when false m) w Q.
Proof. trivial. Qed.

(** The labels of [uxst_bind_listener]: what they return, and the calls
    they add to the trace. *)
Lemma wp_err_return {hd : headers} (f : frame) (w : world)
    (Q : Z * listener * string -> world -> Prop) :
  Q (f_err f, f_listener f, error_message f) w -> wp (err_return f) w Q.
Proof. trivial. Qed.

Lemma wp_err_unlink_back {hd : headers} (env : Env) (f : frame)
    (tr : list event) (e : errno)
    (Q : Z * listener * string -> world -> Prop) :
  (forall suffix e',
     map ev_call suffix =
       unwinding (f_tempname f) (f_backname f) (f_fd f)
         false false (on_disk f) ->
     Q (f_err f, f_listener f, error_message f)
       {| w_trace := tr ++ suffix; w_errno := e' |}) ->
  wp (err_unlink_back env f) {| w_trace := tr; w_errno := e |} Q.
Proof.
  intros H. unfold err_unlink_back.
  destruct (on_disk f) eqn:Hd.
  - apply wp_bind, wp_when_true, wp_syscall. intros r.
    apply wp_err_return, H. reflexivity.
  - apply wp_bind, wp_when_false, wp_err_return.
    rewrite <- (app_nil_r tr). apply H. reflexivity.
Qed.

Lemma wp_err_unlink_temp {hd : headers} (env : Env) (f : frame)
    (tr : list event) (e : errno)
    (Q : Z * listener * string -> world -> Prop) :
  (forall suffix e',
     map ev_call suffix =
       unwinding (f_tempname f) (f_backname f) (f_fd f)
         (on_disk f) true (on_disk f) ->
     Q (f_err f, f_listener f, error_message f)
       {| w_trace := tr ++ suffix; w_errno := e' |}) ->
  wp (err_unlink_temp env f) {| w_trace := tr; w_errno := e |} Q.
Proof.
  intros H. unfold err_unlink_temp.
  destruct (on_disk f) eqn:Hd.
  - apply wp_bind, wp_when_true, wp_syscall. intros r1.
    apply wp_bind, wp_syscall. intros r2.
    apply wp_err_unlink_back. intros suffix e' Hs.
    rewrite <- !app_assoc. apply H.
    rewrite !map_app, Hs, Hd. reflexivity.
  - apply wp_bind, wp_when_false.
    apply wp_bind, wp_syscall. intros r2.
    apply wp_err_unlink_back. intros suffix e' Hs.
    rewrite <- !app_assoc. apply H.
    rewrite !map_app, Hs, Hd. reflexivity.
Qed.

Lemma wp_err_rename {hd : headers} (env : Env) (f : frame)
    (tr : list event) (e : errno)
    (Q : Z * listener * string -> world -> Prop) :
  (forall r suffix rest undo e',
     suffix = (rest ++ undo)%list ->
     map ev_call rest =
       (if (r_ret r <? 0) && errno_eqb (r_errno r) ENOENT
        then [sys_unlink (c_str (f_path f))] else []) ->
     map ev_call undo =
       unwinding (f_tempname f) (f_backname f) (f_fd f)
         (on_disk f) true (on_disk f) ->
     map ev_call suffix =
       ((if (r_ret r <? 0) && errno_eqb (r_errno r) ENOENT
         then [sys_unlink (c_str (f_path f))] else []) ++
        unwinding (f_tempname f) (f_backname f) (f_fd f)
          (on_disk f) true (on_disk f))%list ->
     Q (f_err f, f_listener f, error_message f)
       {| w_trace :=
            (tr ++ [Ev (sys_rename (f_backname f) (c_str (f_path f))) r]) ++
            suffix;
          w_errno := e' |}) ->
  wp (err_rename env f) {| w_trace := tr; w_errno := e |} Q.
Proof.
  intros H. unfold err_rename.
  apply wp_bind, wp_syscall. intros r.
  apply wp_bind, wp_get_errno.
  destruct ((r_ret r <? 0) && errno_eqb (r_errno r) ENOENT) eqn:Hc.
  - apply wp_bind, wp_when_true, wp_syscall. intros r1.
    apply wp_err_unlink_temp. intros undo e' Hs.
    rewrite <- (app_assoc _ [_] undo).
    apply (H r _ [Ev (sys_unlink (c_str (f_path f))) r1] undo e');
      rewrite ?Hc, ?map_app, ?Hs; reflexivity.
  - apply wp_bind, wp_when_false.
    apply wp_err_unlink_temp. intros undo e' Hs.
    apply (H r _ [] undo e'); rewrite ?Hc, ?Hs; reflexivity.
Qed.

(** Splits on the test [c], once the fields of the records in it are
    read. *)
Ltac split_test c :=
  let c' := eval cbn [f_ext f_path f_fd on_disk failing with_fd
                      li_state li_fd li_addr li_options li_bind_conf
                      set_li_fd set_li_state negb andb orb] in c in
  change c with c';
  lazymatch c' with
  | true => idtac
  | false => idtac
  | _ =>
      first [ match goal with E : c' = _ |- _ => rewrite E end
            | destruct c' eqn:? ]
  end.

(** One step of the run of the goal [wp m w Q]; a test that the
    environment decides gives one goal for each of its values, with the
    value of the test in the context. *)
Ltac wp_step :=
  lazymatch goal with
  | |- wp (bind _ _) _ _ => apply wp_bind
  | |- wp (ret _) _ _ => apply wp_ret
  | |- wp get_errno _ _ => apply wp_get_errno
  | |- wp (syscall _ _) _ _ => apply wp_syscall; intros ?r
  | |- wp (service _ _) _ _ => apply wp_service; intros ?r
  | |- wp (helper _ _) _ _ => apply wp_helper; intros ?r
  | |- wp (when true _) _ _ => apply wp_when_true
  | |- wp (when false _) _ _ => apply wp_when_false
  | |- wp (when ?c _) _ _ => split_test c
  | |- wp (andM _ _) _ _ => unfold andM at 1
  | |- wp (orM _ _) _ _ => unfold orM at 1
  | |- wp (if true then _ else _) _ _ => cbv iota
  | |- wp (if false then _ else _) _ _ => cbv iota
  | |- wp (if ?c then _ else _) _ _ => split_test c
  | |- wp (match inl _ with _ => _ end) _ _ => cbv beta iota
  | |- wp (match inr _ with _ => _ end) _ _ => cbv beta iota
  | |- wp (match ?c with _ => _ end) _ _ => destruct c eqn:?
  | |- wp (let _ := _ in _) _ _ => cbv zeta
  | |- wp ((fun _ => _) _) _ _ => cbv beta
  | |- wp (fd_ready _ _ _) _ _ => unfold fd_ready; wp_prepare
  | |- wp (err_return _) _ _ => apply wp_err_return
  | |- wp (err_unlink_back _ _) _ _ =>
      apply wp_err_unlink_back;
      let Hs := fresh "Hsuffix" in
      intros ?suffix ?e Hs; settle_in Hs
  | |- wp (err_unlink_temp _ _) _ _ =>
      apply wp_err_unlink_temp;
      let Hs := fresh "Hsuffix" in
      intros ?suffix ?e Hs; settle_in Hs
  | |- wp (err_rename _ _) _ _ =>
      apply wp_err_rename;
      let Hs := fresh "Hsuffix" in
      let Hsplit := fresh "Hsplit" in
      let Hr := fresh "Hrest" in
      let Hu := fresh "Hundo" in
      let Hs := fresh "Hsuffix" in
      intros ?r ?suffix ?rest ?undo ?e Hsplit Hr Hu Hs;
      lazymatch type of Hr with
      | context [if ?c then _ else _] => destruct c eqn:?
      end;
      settle_in Hu; settle_in Hs; read_fields_in Hr
  | |- (fun _ => _) _ _ => cbv beta
  | |- (fun _ => _) _ => cbv beta
  end.

Ltac wp_run := repeat wp_step.

(** Uses a hypothesis [H : In (Ev c r) trace] on a trace that is explicit,
    but for the calls of the unwinding at its end, of which only the calls
    are known: one goal for each event of the trace that can be the one of
    [H]. *)
Ltac in_explicit H :=
  cbn [same_call filter call_tag ev_call Nat.eqb w_trace app In] in H;
  repeat (destruct H as [H | H]; [ injection H as ?; subst | ]);
  try contradiction H.

Ltac in_suffix H :=
  lazymatch type of H with
  | In _ (map ev_call ?s) =>
      lazymatch goal with
      | Hs : map ev_call s = _ |- _ => rewrite Hs in H
      end
  end;
  cbn [In] in H;
  repeat (destruct H as [H | H];
          [ first [ discriminate H | injection H as ?; subst ] | ]);
  try contradiction H.

Ltac in_trace H :=
  cbn [w_trace] in H;
  match type of H with
  | In _ (_ ++ ?s) =>
      is_var s; apply In_same_call_app in H; destruct H as [H | H];
      [ in_explicit H | in_suffix H ]
  | _ => apply In_same_call in H; in_explicit H
  end.

(** Splits on the tests that are left in the goal once the run is over:
    those of the values that the code computes without a call. *)
Ltac split_values :=
  repeat match goal with
  | |- context [if ?c then _ else _] => destruct c eqn:?
  end.

(** Proves [In x l] on an explicit list [l]. *)
Ltac in_list :=
  cbn [In map calls w_trace ev_call app];
  repeat first [ left; reflexivity | right ].

(* ===================================================================== *)
(** * Facts on masks and error numbers                                    *)
(* ===================================================================== *)

(* ===================================================================== *)

Lemma land_lor_same (a f : Z) : Z.land (Z.lor a f) f = f.
Proof.
  rewrite Z.land_lor_distr_l, Z.land_diag.
  apply Z.bits_inj'; intros n Hn.
  rewrite Z.lor_spec, Z.land_spec.
  destruct (Z.testbit a n), (Z.testbit f n); reflexivity.
Qed.

Lemma has_flag_lor (a f : Z) : f <> 0 -> has_flag (Z.lor a f) f.
Proof. intros Hf. unfold has_flag. now rewrite land_lor_same. Qed.

Lemma land_lor_other (a f g : Z) :
  Z.land f g = 0 -> Z.land (Z.lor a f) g = Z.land a g.
Proof.
  intros H. now rewrite Z.land_lor_distr_l, H, Z.lor_0_r.
Qed.

Lemma land_clear (a f : Z) : Z.land (Z.land a (Z.lnot f)) f = 0.
Proof.
  rewrite <- Z.land_assoc, (Z.land_comm (Z.lnot f) f).
  replace (Z.land f (Z.lnot f)) with 0; [apply Z.land_0_r|].
  symmetry. apply Z.bits_inj'; intros n Hn.
  rewrite Z.land_spec, Z.lnot_spec, Z.bits_0 by assumption.
  now destruct (Z.testbit f n).
Qed.

(** ** Outgoing connections *)

(** C1. When the descriptor that [socket()] returned is not below
    [global.maxsock], [uxst_connect_server] returns [SF_ERR_PRXCOND], has
    closed the descriptor, has set [CO_ER_CONF_FDLIM] and the error flag, and
    has sent no log: its calls are [socket()], the alert and [close()]. *)
Theorem connect_over_maxsock_is_prxcond {hd : headers}
    (global : globals) (env : Env)
    (conn : connection) (flags : Z) (r : reply)
    (out : sf_err) (conn' : connection) (w' : world) :
  uxst_connect_server global env conn flags world0 = (out, conn', w') ->
  In (Ev sys_socket r) (w_trace w') ->
  r_ret r <> -1 ->
  maxsock global <= r_ret r ->
  out = SF_ERR_PRXCOND /\
  conn_err_code conn' = CO_ER_CONF_FDLIM /\
  has_flag (conn_flags conn') CO_FL_ERROR /\
  calls w' =
    [sys_socket;
     hap_ha_alert fmt_not_enough_sockets;
     sys_close (r_ret r)] /\
  forallb (fun c => negb (is_send_log c)) (calls w') = true.
Proof.
  intros Hrun. revert r. by_wp Hrun.
  unfold uxst_connect_server, world0.
  wp_run.
  all: wp_done.
  all: intros rs Hin Hfd Hmax.
  all: bool_facts.
  all: in_trace Hin.
  all: try congruence; try lia.
  all: repeat split; try reflexivity.
  all: apply has_flag_lor, CO_FL_ERROR_set.
Qed.

Lemma connect_over_maxsock_witness :
  exists out conn' w',
    uxst_connect_server (hd := linux_headers) globals0
        (env_socket (answer 200)) conn0 0 world0 =
      (out, conn', w') /\
    In (Ev sys_socket (answer 200)) (w_trace w') /\
    out = SF_ERR_PRXCOND /\
    conn_err_code conn' = CO_ER_CONF_FDLIM /\
    calls w' =
      [sys_socket; hap_ha_alert fmt_not_enough_sockets; sys_close 200].
Proof.
  eexists _, _, _. split; [vm_compute; reflexivity|]. split; [in_list|].
  lazymatch goal with
  | |- ?o = _ /\ conn_err_code ?c = _ /\ calls ?w = _ =>
      assert (Hrun : uxst_connect_server (hd := linux_headers) globals0
                       (env_socket (answer 200)) conn0 0 world0 = (o, c, w))
        by (vm_compute; reflexivity)
  end.
  pose proof (connect_over_maxsock_is_prxcond _ _ _ _ (answer 200) Hrun)
    as H.
  destruct H as (Ho & Hc & _ & Ht & _).
  - in_list.
  - vm_compute; discriminate.
  - vm_compute; discriminate.
  - repeat split; assumption.
Defined.

(** C3, what holds of it.  When [socket()] fails,
    [uxst_connect_server] returns [SF_ERR_RESOURCE] with the error flag set
    and the error code that goes with the error number it reads, which is
    the one of [socket()] unless the message on the standard error changed
    it.  A log of priority [LOG_EMERG] that names the backend and
    [global.maxsock] is sent for [ENFILE], [EMFILE], [ENOBUFS] and
    [ENOMEM], and for these only: no log at all is sent for the other error
    numbers. *)
Lemma connect_socket_failure_classified {hd : headers}
    (global : globals) (env : Env)
    (conn : connection) (flags : Z) (r : reply)
    (out : sf_err) (conn' : connection) (w' : world) :
  uxst_connect_server global env conn flags world0 = (out, conn', w') ->
  In (Ev sys_socket r) (w_trace w') ->
  r_ret r = -1 ->
  exists rq,
    In (Ev (hap_qfprintf fmt_cannot_get_socket []) rq) (w_trace w') /\
    out = SF_ERR_RESOURCE /\
    has_flag (conn_flags conn') CO_FL_ERROR /\
    conn_err_code conn' = socket_err_code (errno_after (r_errno r) rq) /\
    if socket_errno_logged (errno_after (r_errno r) rq) then
      exists be fmt,
        In (hap_send_log be LOG_EMERG fmt
              [arg_s (id be); arg_d (maxsock global)])
           (calls w')
    else forallb (fun c => negb (is_send_log c)) (calls w') = true.
Proof.
  intros Hrun. revert r. by_wp Hrun.
  unfold uxst_connect_server, world0.
  wp_run.
  all: wp_done; intros rs Hin Hfd; in_trace Hin.
  all: bool_facts; try congruence.
  all: eexists; split; [solve [in_list]|].
  all: repeat (bool_facts;
               lazymatch goal with H : _ \/ _ |- _ => destruct H end);
       bool_facts.
  all: split; [reflexivity|].
  all: split; [apply has_flag_lor, CO_FL_ERROR_set|].
  all: repeat match goal with E : errno_after _ _ = _ |- _ => rewrite E end.
  all: try (split; [reflexivity|]; cbn [socket_errno_logged];
            first [ reflexivity | eexists _, _; in_list ]).
  all: lazymatch goal with
       | |- context [socket_err_code ?e] => destruct e; try congruence
       end.
  all: split; reflexivity.
Qed.

(** C3, on the code.  When [socket()] fails with [EAFNOSUPPORT],
    [uxst_connect_server] returns [SF_ERR_RESOURCE] with [CO_ER_NOPROTO]
    and sends no log: its calls are [socket()] and the message on the
    standard error. *)
Lemma connect_noproto_sends_no_log :
  exists conn' w',
    uxst_connect_server (hd := linux_headers) globals0
        (env_socket (failure EAFNOSUPPORT)) conn0 0 world0 = (SF_ERR_RESOURCE, conn', w') /\
    conn_err_code conn' = CO_ER_NOPROTO /\
    calls w' = [sys_socket; hap_qfprintf fmt_cannot_get_socket []] /\
    existsb is_send_log (calls w') = false.
Proof.
  eexists _, _. split; [vm_compute; reflexivity|]. repeat split.
Qed.




(** Reads the flags of a connection against [CO_FL_WAIT_L4_CONN]. *)
Ltac wait_flag_in H :=
  repeat first
    [ rewrite (@land_lor_other _ _ _ CO_FL_ERROR_WAIT) in H
    | rewrite (@land_lor_other _ _ _ CO_FL_ADDR_WAIT) in H
    | rewrite (@land_lor_other _ _ _ CO_FL_PROXY_WAIT) in H
    | rewrite land_clear in H
    | rewrite land_lor_same in H ];
  change (0 =? 0) with true in H;
  cbn [negb] in H.

Ltac wait_flag :=
  unfold has_flag, truthy in *;
  cbn [conn_flags conn_flags_or conn_flags_clear set_conn_flags
       set_conn_err_code set_conn_handle_fd conn_err_code] in *;
  repeat match goal with
  | H : context [Z.land _ CO_FL_WAIT_L4_CONN] |- _ =>
      progress wait_flag_in H
  end;
  repeat first
    [ rewrite (@land_lor_other _ _ _ CO_FL_ERROR_WAIT)
    | rewrite (@land_lor_other _ _ _ CO_FL_ADDR_WAIT)
    | rewrite (@land_lor_other _ _ _ CO_FL_PROXY_WAIT)
    | rewrite land_clear
    | rewrite land_lor_same ].

(** C7. What [uxst_connect_server] does with the answer of [connect()].
    When it succeeds or fails with [EISCONN], the flag
    [CO_FL_WAIT_L4_CONN] is clear on return and none of [fd_want_send],
    [fd_cant_send], [fd_cant_recv] was called.  When it fails with
    [EINPROGRESS] or [EALREADY], the flag is set on return and the three
    were called.  [ETIMEDOUT] gives [SF_ERR_SRVTO]; [EAGAIN] and
    [EADDRNOTAVAIL] give [SF_ERR_RESOURCE] with [CO_ER_FREE_PORTS],
    [EADDRINUSE] gives [SF_ERR_RESOURCE] with [CO_ER_ADDR_INUSE]; every
    other error number gives [SF_ERR_SRVCL]. *)
Theorem connect_answer_classified {hd : headers}
    (global : globals) (env : Env)
    (conn : connection) (flags : Z) (fd : Z) (dst : string) (r : reply)
    (out : sf_err) (conn' : connection) (w' : world) :
  uxst_connect_server global env conn flags world0 = (out, conn', w') ->
  In (Ev (sys_connect fd dst) r) (w_trace w') ->
  (r_ret r <> -1 \/ r_errno r = EISCONN ->
     ~ has_flag (conn_flags conn') CO_FL_WAIT_L4_CONN /\
     forallb (fun c => negb (is_hint c)) (calls w') = true) /\
  (r_ret r = -1 -> r_errno r = EINPROGRESS \/ r_errno r = EALREADY ->
     has_flag (conn_flags conn') CO_FL_WAIT_L4_CONN /\
     In (hap_fd_want_send fd) (calls w') /\
     In (hap_fd_cant_send fd) (calls w') /\
     In (hap_fd_cant_recv fd) (calls w')) /\
  (r_ret r = -1 -> r_errno r = ETIMEDOUT -> out = SF_ERR_SRVTO) /\
  (r_ret r = -1 -> r_errno r = EAGAIN \/ r_errno r = EADDRNOTAVAIL ->
     out = SF_ERR_RESOURCE /\ conn_err_code conn' = CO_ER_FREE_PORTS) /\
  (r_ret r = -1 -> r_errno r = EADDRINUSE ->
     out = SF_ERR_RESOURCE /\ conn_err_code conn' = CO_ER_ADDR_INUSE) /\
  (r_ret r = -1 ->
   ~ In (r_errno r) [EINPROGRESS; EALREADY; EISCONN; EAGAIN; EADDRINUSE;
                     EADDRNOTAVAIL; ETIMEDOUT] ->
     out = SF_ERR_SRVCL).
Proof.
  intros Hrun. by_wp Hrun.
  unfold uxst_connect_server, world0.
  wp_prepare.
  destruct (truthy (conn_send_proxy_ofs conn)) eqn:Hsp.
  all: wp_run.
  all: wp_done; intros Hin; in_trace Hin.
  all: wait_flag; try discriminate.
  all: repeat (bool_facts;
                    lazymatch goal with H : _ \/ _ |- _ => destruct H end);
            bool_facts.
  all: try (exfalso; apply CO_FL_WAIT_L4_CONN_set; assumption).
  all: repeat lazymatch goal with
       | |- _ /\ _ => split
       | |- _ \/ _ -> _ => intros [?|?]
       | |- _ -> _ => intro
       end.
  all: try congruence.
  all: try solve [in_list].
  all: try reflexivity.
  all: try lazymatch goal with
       | H : ~ In (r_errno ?r) _, E : r_errno ?r = _ |- _ =>
           exfalso; apply H; rewrite E; in_list
       end.
  all: try lazymatch goal with
       | E : r_errno ?r = _ |- _ =>
           rewrite E; reflexivity
       end.
Qed.

Lemma connect_answer_classified_witness :
  exists conn' w',
    uxst_connect_server (hd := linux_headers) globals0
        (env_connect (failure EINPROGRESS)) conn0 0 world0 =
      (SF_ERR_NONE, conn', w') /\
    In (Ev (sys_connect 7 "/run/app.sock") (failure EINPROGRESS))
       (w_trace w') /\
    has_flag (conn_flags conn') CO_FL_WAIT_L4_CONN /\
    In (hap_fd_want_send 7) (calls w') /\
    In (hap_fd_cant_send 7) (calls w') /\
    In (hap_fd_cant_recv 7) (calls w').
Proof.
  eexists _, _. split; [vm_compute; reflexivity|]. split; [in_list|].
  lazymatch goal with
  | |- has_flag (conn_flags ?c) _ /\ In _ (calls ?w) /\ _ =>
      assert (Hrun : uxst_connect_server (hd := linux_headers) globals0
                       (env_connect (failure EINPROGRESS)) conn0 0 world0 =
                     (SF_ERR_NONE, c, w))
        by (vm_compute; reflexivity)
  end.
  pose proof (connect_answer_classified _ _ _ _ 7 "/run/app.sock"
                (failure EINPROGRESS) Hrun) as H.
  destruct H as (_ & H & _); [in_list|].
  apply H; [reflexivity | left; reflexivity].
Defined.

(** ** Listeners *)

(** The masks that [uxst_bind_listener] returns. *)
Lemma none_mask_no_flag {hd : headers} (f : Z) : ~ has_flag ERR_NONE f.
Proof. unfold has_flag. rewrite ERR_NONE_empty, Z.land_0_l. congruence. Qed.

Lemma fatal_mask_fatal {hd : headers} :
  has_flag (Z.lor ERR_NONE (Z.lor ERR_FATAL ERR_ALERT)) ERR_FATAL.
Proof.
  unfold has_flag.
  rewrite ERR_NONE_empty, Z.lor_0_l, Z.lor_comm, land_lor_same.
  apply ERR_FATAL_set.
Qed.

Lemma fatal_mask_not_retryable {hd : headers} :
  ~ has_flag (Z.lor ERR_NONE (Z.lor ERR_FATAL ERR_ALERT)) ERR_RETRYABLE.
Proof.
  unfold has_flag.
  rewrite ERR_NONE_empty, Z.lor_0_l, Z.land_lor_distr_l.
  rewrite ERR_FATAL_RETRYABLE, ERR_ALERT_RETRYABLE. cbn. congruence.
Qed.

Lemma retryable_mask_retryable {hd : headers} :
  has_flag (Z.lor ERR_NONE (Z.lor ERR_RETRYABLE ERR_ALERT)) ERR_RETRYABLE.
Proof.
  unfold has_flag.
  rewrite ERR_NONE_empty, Z.lor_0_l, Z.lor_comm, land_lor_same.
  apply ERR_RETRYABLE_set.
Qed.

Lemma retryable_mask_not_fatal {hd : headers} :
  ~ has_flag (Z.lor ERR_NONE (Z.lor ERR_RETRYABLE ERR_ALERT)) ERR_FATAL.
Proof.
  unfold has_flag.
  rewrite ERR_NONE_empty, Z.lor_0_l, Z.land_lor_distr_l.
  rewrite ERR_RETRYABLE_FATAL, ERR_ALERT_FATAL. cbn. congruence.
Qed.

(** Proves [In x (explicit ++ suffix)] for an [x] of the explicit part. *)
Ltac in_front :=
  cbn [w_trace];
  first [ apply in_or_app; left; in_list | in_list ].

(** C6. On a listener whose state is not [LI_ASSIGNED],
    [uxst_bind_listener] returns [ERR_NONE], leaves the listener as it is
    and makes no call at all: no descriptor and no entry of the file system
    is touched. *)
Theorem bind_not_assigned_is_noop {hd : headers}
    (global : globals) (env : Env)
    (l : listener) (errmsg : string) (errlen : Z)
    (res : Z) (l' : listener) (errmsg' : string) (w' : world) :
  li_state l <> LI_ASSIGNED ->
  uxst_bind_listener global env l errmsg errlen world0 =
    (res, l', errmsg', w') ->
  res = ERR_NONE /\ l' = l /\ w_trace w' = [].
Proof.
  intros Hst Hrun. unfold uxst_bind_listener in Hrun.
  apply Z.eqb_neq in Hst. rewrite Hst in Hrun. cbn in Hrun.
  injection Hrun as <- <- <- <-. repeat split.
Qed.

Lemma bind_not_assigned_witness :
  exists res l' errmsg' w',
    li_state listener_bound <> LI_ASSIGNED (headers := linux_headers) /\
    uxst_bind_listener (hd := linux_headers) globals0
        (env_bind (answer 0) (answer 0)) listener_bound "stale" 100 world0 =
      (res, l', errmsg', w') /\
    res = ERR_NONE (headers := linux_headers) /\ l' = listener_bound /\
    w_trace w' = [].
Proof.
  eexists _, _, _, _. split; [discriminate|].
  split; [vm_compute; reflexivity|].
  eapply (@bind_not_assigned_is_noop linux_headers globals0
            (env_bind (answer 0) (answer 0)) listener_bound "stale" 100).
  - discriminate.
  - vm_compute; reflexivity.
Defined.

(** C5. The [bind()] of [uxst_bind_listener].  When it fails with
    [EADDRINUSE] the returned mask has [ERR_RETRYABLE]; when it fails with
    any other error number the mask has [ERR_FATAL]; and a mask with
    [ERR_RETRYABLE] is only returned after a [bind()] that failed with
    [EADDRINUSE]. *)
Theorem bind_retryable_is_addr_in_use {hd : headers}
    (global : globals) (env : Env)
    (l : listener) (errmsg : string) (errlen : Z)
    (res : Z) (l' : listener) (errmsg' : string) (w' : world) :
  uxst_bind_listener global env l errmsg errlen world0 =
    (res, l', errmsg', w') ->
  (forall fd addr r,
     In (Ev (sys_bind fd addr) r) (w_trace w') -> r_ret r < 0 ->
     (r_errno r = EADDRINUSE -> has_flag res ERR_RETRYABLE) /\
     (r_errno r <> EADDRINUSE -> has_flag res ERR_FATAL)) /\
  (has_flag res ERR_RETRYABLE ->
   exists fd addr r,
     In (Ev (sys_bind fd addr) r) (w_trace w') /\
     r_ret r < 0 /\ r_errno r = EADDRINUSE).
Proof.
  intros Hrun. by_wp Hrun.
  unfold uxst_bind_listener, world0.
  wp_prepare.
  wp_run.
  all: wp_done.
  all: split;
    [ intros fd0 addr0 rs Hin Hneg; in_trace Hin; bool_facts; try lia;
      split; intros He; try congruence;
      try first [ apply retryable_mask_retryable | apply fatal_mask_fatal ]
    | intros Hf;
      try first [ exfalso; revert Hf; apply none_mask_no_flag
            | exfalso; revert Hf; apply fatal_mask_not_retryable
            | bool_facts; eexists _, _, _; split; [in_front|];
              split; [lia | assumption] ] ].
Qed.

Lemma bind_retryable_witness :
  exists res l' errmsg' w',
    uxst_bind_listener (hd := linux_headers) globals0
        (env_bind (failure EADDRINUSE) (answer 0)) listener0 "" 100 world0 =
      (res, l', errmsg', w') /\
    In (Ev (sys_bind 7 "/run/hap.sock.4242.tmp") (failure EADDRINUSE))
       (w_trace w') /\
    has_flag res (ERR_RETRYABLE (headers := linux_headers)).
Proof.
  eexists _, _, _, _. split; [vm_compute; reflexivity|].
  split; [in_list|].
  lazymatch goal with
  | |- has_flag ?res _ =>
      assert (Hrun : exists l' m' w',
                uxst_bind_listener (hd := linux_headers) globals0
                  (env_bind (failure EADDRINUSE) (answer 0)) listener0 ""
                  100 world0 = (res, l', m', w') /\
                In (Ev (sys_bind 7 "/run/hap.sock.4242.tmp")
                      (failure EADDRINUSE)) (w_trace w'))
        by (eexists _, _, _; split; [vm_compute; reflexivity | in_list])
  end.
  destruct Hrun as (l' & m' & w' & Hrun & Hin).
  destruct (bind_retryable_is_addr_in_use _ _ _ _ _ Hrun) as [H _].
  apply (H _ _ _ Hin); [vm_compute; reflexivity | reflexivity].
Defined.

(** A mask with [ERR_FATAL] or [ERR_RETRYABLE] is not [ERR_NONE]. *)
Lemma fatal_mask_not_none {hd : headers} :
  Z.lor ERR_NONE (Z.lor ERR_FATAL ERR_ALERT) <> ERR_NONE.
Proof.
  intros E. apply (@none_mask_no_flag _ ERR_FATAL).
  rewrite <- E. apply fatal_mask_fatal.
Qed.

Lemma retryable_mask_not_none {hd : headers} :
  Z.lor ERR_NONE (Z.lor ERR_RETRYABLE ERR_ALERT) <> ERR_NONE.
Proof.
  intros E. apply (@none_mask_no_flag _ ERR_RETRYABLE).
  rewrite <- E. apply retryable_mask_retryable.
Qed.

(** C10. When [errlen] is not zero, [uxst_bind_listener] empties [errmsg]
    before anything else: what it does and returns does not depend on what
    [errmsg] held, and when it returns [ERR_NONE], on a listener that is not
    [LI_ASSIGNED] as after a successful bind, [errmsg] holds the empty
    string. *)
Theorem bind_empties_errmsg {hd : headers}
    (global : globals) (env : Env)
    (l : listener) (errmsg : string) (errlen : Z) :
  errlen <> 0 ->
  uxst_bind_listener global env l errmsg errlen world0 =
    uxst_bind_listener global env l "" errlen world0 /\
  (li_state l <> LI_ASSIGNED ->
   snd (fst (uxst_bind_listener global env l errmsg errlen world0)) = "") /\
  (forall res l' errmsg' w',
     uxst_bind_listener global env l errmsg errlen world0 =
       (res, l', errmsg', w') ->
     res = ERR_NONE -> errmsg' = "").
Proof.
  intros Hlen.
  assert (Ht : truthy errlen = true)
    by (unfold truthy; apply negb_true_iff, Z.eqb_neq, Hlen).
  split; [|split].
  - unfold uxst_bind_listener. rewrite Ht. reflexivity.
  - intros Hst. unfold uxst_bind_listener.
    apply Z.eqb_neq in Hst. rewrite Hst, Ht. reflexivity.
  - intros res l' errmsg' w' Hrun. by_wp Hrun.
    unfold uxst_bind_listener, world0. rewrite Ht.
    wp_prepare.
    wp_run.
    all: wp_done; intros Hres; try reflexivity.
    all: exfalso; revert Hres;
         first [ apply fatal_mask_not_none | apply retryable_mask_not_none ].
Qed.

Lemma bind_empties_errmsg_witness :
  100 <> 0 /\
  uxst_bind_listener (hd := linux_headers) globals0
      (env_bind (answer 0) (answer 0)) listener0 "stale" 100 world0 =
    uxst_bind_listener (hd := linux_headers) globals0
      (env_bind (answer 0) (answer 0)) listener0 "" 100 world0.
Proof.
  split; [discriminate|].
  apply (@bind_empties_errmsg linux_headers globals0
           (env_bind (answer 0) (answer 0)) listener0 "stale" 100).
  discriminate.
Defined.

(** What [snprintf] writes. *)
Lemma substring_length_le (n : nat) (s : string) :
  (String.length (substring 0 n s) <= n)%nat.
Proof.
  revert s. induction n as [|n IH]; intros [|c s]; cbn; try lia.
  specialize (IH s). lia.
Qed.

Lemma substring_length_le_string (n : nat) (s : string) :
  (String.length (substring 0 n s) <= String.length s)%nat.
Proof.
  revert s. induction n as [|n IH]; intros [|c s]; cbn; try lia.
  specialize (IH s). lia.
Qed.

Lemma snprintf_bounded (n : Z) (s : string) :
  0 < n -> strlen (snprintf "" n s) < n.
Proof.
  intros Hn. unfold snprintf, strlen.
  destruct (Z.eqb_spec n 0); [lia|].
  destruct (Z.ltb_spec n 0); [lia|].
  pose proof (substring_length_le (Z.to_nat (n - 1)) s). lia.
Qed.

Lemma snprintf_not_longer (n : Z) (s : string) :
  strlen (snprintf "" n s) <= strlen s.
Proof.
  unfold snprintf, strlen.
  destruct (n =? 0); [cbn; lia|].
  destruct (n <? 0); [lia|].
  pose proof (substring_length_le_string (Z.to_nat (n - 1)) s). lia.
Qed.

(** The parts of the trace of a failed [uxst_bind_listener]: what comes
    before the label, the restoration, the unwinding. *)
Ltac give_unwinding cs fd t d b :=
  lazymatch cs with
  | [sys_unlink _; sys_close ?x; sys_unlink _] =>
      unify fd x; unify t true; unify d true; unify b true
  | [sys_close ?x] =>
      unify fd x; unify t false; unify d true; unify b false
  | [sys_unlink _] =>
      unify fd 0; unify t false; unify d false; unify b true
  | [] =>
      unify fd 0; unify t false; unify d false; unify b false
  end.

Ltac give_trace :=
  cbn [w_trace];
  eexists _, _, _, _, _, _, _;
  match goal with
  | Hsplit : ?s = (?rest ++ ?undo)%list
    |- ((?tr ++ [?ev]) ++ ?s = ?pre ++ ?restore ++ ?un)%list /\ _ =>
      unify pre tr; unify restore (ev :: rest); unify un undo
  | |- (?tr ++ ?s = ?pre ++ ?restore ++ ?un)%list /\ _ =>
      is_var s; unify pre tr; unify restore (@nil event); unify un s
  | |- (?tr = ?pre ++ ?restore ++ ?un)%list /\ _ =>
      unify pre tr; unify restore (@nil event); unify un (@nil event)
  end;
  lazymatch goal with
  | |- _ /\ map ev_call [] = unwinding _ _ ?fd ?t ?d ?b /\ _ =>
      give_unwinding (@nil call) fd t d b
  | Hu : map ev_call ?u = ?cs
    |- _ /\ map ev_call ?u = unwinding _ _ ?fd ?t ?d ?b /\ _ =>
      give_unwinding cs fd t d b
  end.

(** C4. The unwinding of [uxst_bind_listener].  When it does not return
    [ERR_NONE], its trace ends with the restoration of the backup, if the
    switch of the sockets is what failed, and then with the unwinding in
    reverse order: unlink of the temporary file, close of the descriptor,
    unlink of the backup file; the listener keeps its state.  A backup that [link()] created, a
    descriptor that [socket()] created and a temporary file that [bind()]
    created are always among the ones unwound.  The message is a static
    reason text followed by the path, or by the descriptor for a listener
    whose descriptor was supplied, and holds less than [errlen]
    characters. *)
Theorem bind_failure_unwinds {hd : headers}
    (global : globals) (env : Env)
    (l : listener) (errmsg : string) (errlen : Z)
    (res : Z) (l' : listener) (errmsg' : string) (w' : world) :
  uxst_bind_listener global env l errmsg errlen world0 =
    (res, l', errmsg', w') ->
  res <> ERR_NONE ->
  let path := c_str (li_addr l) in
  let tempname := temp_name global (li_addr l) in
  let backname := back_name global (li_addr l) in
  exists (pre restore undo : list event) (temp desc back : bool) (fd : Z),
    w_trace w' = (pre ++ restore ++ undo)%list /\
    map ev_call undo = unwinding tempname backname fd temp desc back /\
    (forall r, In (Ev (sys_link path backname) r) pre ->
       0 <= r_ret r -> back = true) /\
    (forall r, In (Ev sys_socket r) pre ->
       0 <= r_ret r -> desc = true /\ fd = r_ret r) /\
    (forall fd0 addr r, In (Ev (sys_bind fd0 addr) r) pre ->
       0 <= r_ret r -> first_byte (li_addr l) = true -> temp = true) /\
    (forall o n r, In (Ev (sys_rename o n) r) pre ->
       r_ret r < 0 /\ o = tempname /\ n = path /\
       restoring path backname restore) /\
    ((forall o n r, ~ In (Ev (sys_rename o n) r) pre) -> restore = []) /\
    li_state l' = li_state l /\
    (errlen = 0 -> errmsg' = errmsg) /\
    (errlen <> 0 ->
     exists reason, In reason bind_reasons /\
       errmsg' =
         snprintf "" errlen
           (reason ++
            (if 0 <=? li_fd l' then " [fd " ++ dec (li_fd l') ++ "]"
             else " [" ++ path ++ "]"))) /\
    (0 < errlen -> strlen errmsg' < errlen).
Proof.
  intros Hrun. by_wp Hrun.
  unfold uxst_bind_listener, world0.
  wp_prepare.
  wp_run.
  all: wp_done; intros Hres.
  all: try (exfalso; apply Hres; reflexivity).
  all: give_trace.
  all: split;
       [ try first [ reflexivity
               | rewrite !app_nil_r; reflexivity
               | lazymatch goal with
                 | Hsplit : _ = (_ ++ _)%list |- _ =>
                     rewrite Hsplit, <- app_assoc; reflexivity
                 end ]
       | split; [ try first [ assumption | reflexivity ] | ] ].
  (* the test on the length of [tempname] never fails *)
  all: try lazymatch goal with
       | H : (sizeof_sun_path <=? strlen (temp_name ?g ?p)) = true |- _ =>
           exfalso; bool_facts; unfold temp_name in H;
           pose proof (snprintf_not_longer (Z.min MAXPATHLEN sizeof_sun_path)
                         (c_str p ++ "." ++ dec (pid g) ++ ".tmp"));
           lia
       end.
  all: repeat lazymatch goal with |- _ /\ _ => split end.
  all: try lazymatch goal with
       | |- forall r, In (Ev (sys_link _ _) r) _ -> _ -> _ = true =>
           intros rs Hin Hge; apply In_same_call in Hin; in_explicit Hin;
           bool_facts; first [ reflexivity | lia ]
       | |- forall r, In (Ev sys_socket r) _ -> _ -> _ /\ _ =>
           intros rs Hin Hge; apply In_same_call in Hin; in_explicit Hin;
           bool_facts; first [ split; reflexivity | lia ]
       | |- forall fd addr r, In (Ev (sys_bind fd addr) r) _ -> _ =>
           intros fd0 addr0 rs Hin Hge Hfb; apply In_same_call in Hin;
           in_explicit Hin;
           bool_facts; first [ reflexivity | lia | congruence ]
       | |- forall o n r, In (Ev (sys_rename o n) r) _ -> _ =>
           intros o n rs Hin; apply In_same_call in Hin; in_explicit Hin;
           (split; [bool_facts; lia|]; split; [reflexivity|];
            split; [reflexivity|];
            eexists _, _; split; [reflexivity|];
            match goal with
            | E : (_ <? 0) && errno_eqb _ _ = _ |- _ => rewrite E
            end; assumption)
       | |- (forall o n r, ~ In _ _) -> _ = [] =>
           intros Hno;
           first [ reflexivity | exfalso; eapply Hno; in_list ]
       end.
  all: lazymatch goal with
       | |- li_state _ = li_state _ => reflexivity
       | |- ?len = 0 -> _ => intros ->; reflexivity
       | |- ?len <> 0 -> exists _, _ =>
           intros Hlen;
           assert (Ht : truthy len = true)
             by (unfold truthy; apply negb_true_iff, Z.eqb_neq, Hlen);
           lazymatch goal with
           | |- context [failing _ _ ?m] => exists m
           end;
           split; [unfold bind_reasons; in_list|];
           unfold error_message; read_fields; rewrite Ht;
           repeat match goal with
           | E : (0 <=? _) = _ |- _ => rewrite E
           end;
           reflexivity
       | |- 0 < ?len -> _ =>
           intros Hlen;
           assert (Ht : truthy len = true)
             by (unfold truthy; apply negb_true_iff, Z.eqb_neq; lia);
           unfold error_message; read_fields; rewrite Ht;
           apply snprintf_bounded, Hlen
       end.
Qed.

Lemma bind_failure_unwinds_witness :
  exists res l' errmsg' w',
    uxst_bind_listener (hd := linux_headers) globals0
        (env_bind (answer 0) (failure ENOENT)) listener0 "" 100 world0 =
      (res, l', errmsg', w') /\
    res <> ERR_NONE (headers := linux_headers) /\
    exists pre restore undo temp desc back fd,
      w_trace w' = (pre ++ restore ++ undo)%list /\
      map ev_call undo =
        unwinding (temp_name (hd := linux_headers) globals0 "/run/hap.sock")
          (back_name (hd := linux_headers) globals0 "/run/hap.sock")
          fd temp desc back.
Proof.
  eexists _, _, _, _. split; [vm_compute; reflexivity|].
  split; [vm_compute; discriminate|].
  lazymatch goal with
  | |- exists _ _ _ _ _ _ _, w_trace ?w = _ /\ _ =>
      assert (Hrun : exists res l' m',
                uxst_bind_listener (hd := linux_headers) globals0
                  (env_bind (answer 0) (failure ENOENT)) listener0 ""
                  100 world0 = (res, l', m', w) /\
                res <> ERR_NONE (headers := linux_headers))
        by (eexists _, _, _; split;
            [vm_compute; reflexivity | vm_compute; discriminate])
  end.
  destruct Hrun as (res & l' & m' & Hrun & Hres).
  destruct (bind_failure_unwinds _ _ _ _ _ Hrun Hres)
    as (pre & restore & undo & temp & desc & back & fd & H1 & H2 & _).
  exists pre, restore, undo, temp, desc, back, fd. split; assumption.
Defined.

(** C8. [uxst_pause_listener] on a listener with an abstract name returns
    0 and is the unbind of the listener: the state is at most
    [LI_ASSIGNED] afterwards, and a listener that was bound has its
    descriptor released and set to -1.  On a listener with a path it returns
    1, makes no call and leaves the listener as it is. *)
Theorem pause_unbinds_abstract_only {hd : headers} (env : Env)
    (l : listener) (r : Z) (l' : listener) (w' : world) :
  uxst_pause_listener env l world0 = (r, l', w') ->
  (first_byte (li_addr l) = false ->
     r = 0 /\
     li_state l' <= LI_ASSIGNED /\
     (LI_ASSIGNED < li_state l ->
        li_state l' = LI_ASSIGNED /\ li_fd l' = -1 /\
        calls w' = [hap_fd_delete (li_fd l)]) /\
     (li_state l <= LI_ASSIGNED -> l' = l /\ calls w' = [])) /\
  (first_byte (li_addr l) = true -> r = 1 /\ l' = l /\ calls w' = []).
Proof.
  intros Hrun. by_wp Hrun.
  unfold uxst_pause_listener, do_unbind_listener, world0.
  change (truthy 1) with true.
  wp_run.
  all: wp_done; bool_facts.
  all: split; intros Hp; try congruence.
  all: repeat split; cbn [li_state li_fd set_li_state set_li_fd];
       try reflexivity; try lia.
  all: intros; lia.
Qed.

Lemma pause_unbinds_abstract_witness :
  exists r l' w',
    uxst_pause_listener (hd := linux_headers)
        (env_bind (answer 0) (answer 0)) listener_abstract world0 =
      (r, l', w') /\
    first_byte (li_addr listener_abstract) = false /\
    r = 0 /\ li_state l' <= LI_ASSIGNED (headers := linux_headers).
Proof.
  eexists _, _, _. split; [vm_compute; reflexivity|].
  split; [reflexivity|].
  lazymatch goal with
  | |- ?r = 0 /\ li_state ?l <= _ =>
      assert (Hrun : exists w',
                uxst_pause_listener (hd := linux_headers)
                  (env_bind (answer 0) (answer 0)) listener_abstract
                  world0 = (r, l, w'))
        by (eexists; vm_compute; reflexivity)
  end.
  destruct Hrun as (w' & Hrun).
  destruct (pause_unbinds_abstract_only _ _ Hrun) as [H _].
  destruct (H eq_refl) as (Hr & Hs & _). split; assumption.
Defined.

(** ** The protocol *)

Lemma accumulate_cons (acc : Z) (o : Z * listener * string)
    (outs : list (Z * listener * string)) :
  accumulate acc (o :: outs) = accumulate (Z.lor acc (fst (fst o))) outs.
Proof. reflexivity. Qed.

(** The loop of [uxst_bind_listeners]: it binds a prefix [done] of the
    listeners in order, ORs the masks into [err], and leaves the other
    listeners [rest] alone; it leaves some only when the mask has
    [ERR_ABORT], and went on only while the mask had not. *)
Lemma bind_each_in_order {hd : headers} (global : globals) (env : Env)
    (errlen : Z) (ls : list listener) :
  forall (err : Z) (m : string) (w : world)
         (res : Z) (ls' : list listener) (m' : string) (w' : world),
  bind_each global env ls err m errlen w = (res, ls', m', w') ->
  exists (done rest : list listener) (outs : list (Z * listener * string)),
    ls = (done ++ rest)%list /\
    bind_in_order global env errlen w m done outs w' /\
    res = accumulate err outs /\
    ls' = (map (fun o => snd (fst o)) outs ++ rest)%list /\
    (rest <> [] -> has_flag res ERR_ABORT) /\
    (forall k, (0 < k < length outs)%nat ->
       ~ has_flag (accumulate err (firstn k outs)) ERR_ABORT).
Proof.
  induction ls as [|l ls IH]; intros err m w res ls' m' w' Hrun.
  - cbn in Hrun. injection Hrun as <- <- <- <-.
    exists [], [], []. repeat split; try constructor.
    + intros H. now elim H.
    + cbn. intros k Hk. lia.
  - cbn [bind_each] in Hrun. unfold bind at 1 in Hrun.
    destruct (uxst_bind_listener global env l m errlen w)
      as [[[e l1] m1] w1] eqn:Hb.
    destruct (truthy (Z.land (Z.lor err e) ERR_ABORT)) eqn:Hab.
    + (* the loop stops *)
      cbn in Hrun. injection Hrun as <- <- <- <-.
      exists [l], ls, [(e, l1, m1)].
      split; [reflexivity|]. split.
      { econstructor; [exact Hb | constructor]. }
      split; [reflexivity|]. split; [reflexivity|].
      split.
      * intros _. unfold has_flag, truthy in *. cbn.
        apply negb_true_iff, Z.eqb_neq in Hab. exact Hab.
      * cbn. intros k Hk. lia.
    + (* the loop goes on *)
      unfold bind at 1 in Hrun.
      destruct (bind_each global env ls (Z.lor err e) m1 errlen w1)
        as [[[res2 ls2] m2] w2] eqn:Hrest.
      cbn in Hrun. injection Hrun as <- <- <- <-.
      destruct (IH _ _ _ _ _ _ _ Hrest)
        as (done & rest & outs & Hls & Hseq & Hres & Hls2 & Hstop & Hgo).
      exists (l :: done), rest, ((e, l1, m1) :: outs).
      split; [now rewrite Hls|]. split.
      { econstructor; [exact Hb | exact Hseq]. }
      split; [exact Hres|]. split; [now rewrite Hls2|].
      split; [exact Hstop|].
      intros k Hk. destruct k as [|k]; [lia|].
      cbn [firstn]. rewrite accumulate_cons. cbn [fst].
      destruct k as [|k].
      * cbn. unfold has_flag, truthy in *.
        apply negb_false_iff, Z.eqb_eq in Hab. now rewrite Hab.
      * apply Hgo. cbn [length] in Hk. lia.
Qed.

Lemma unbind_each_in_order {hd : headers} (env : Env) (ls : list listener) :
  forall (w : world) (ls' : list listener) (w' : world),
  unbind_each env ls w = (ls', w') -> unbind_in_order env w ls ls' w'.
Proof.
  induction ls as [|l ls IH]; intros w ls' w' Hrun.
  - cbn in Hrun. injection Hrun as <- <-. constructor.
  - cbn [unbind_each] in Hrun. unfold bind at 1 in Hrun.
    destruct (uxst_unbind_listener env l w) as [[e l1] w1] eqn:Hu.
    unfold bind at 1 in Hrun.
    destruct (unbind_each env ls w1) as [ls2 w2] eqn:Hrest.
    cbn in Hrun. injection Hrun as <- <-.
    assert (He : e = ERR_NONE).
    { unfold uxst_unbind_listener, bind in Hu.
      destruct (if LI_ASSIGNED <? li_state l then _ else _) in Hu.
      cbn in Hu. now injection Hu as <- _ _. }
    subst e. econstructor; [exact Hu | apply IH, Hrest].
Qed.

(** [uxst_bind_listener] never returns [ERR_ABORT]: the loop of
    [uxst_bind_listeners] has no occasion to stop early on the masks of this
    file. *)
Lemma bind_listener_never_aborts {hd : headers}
    (global : globals) (env : Env)
    (l : listener) (errmsg : string) (errlen : Z) (w : world) :
  ~ has_flag
      (fst (fst (fst (uxst_bind_listener global env l errmsg errlen w))))
      ERR_ABORT.
Proof.
  destruct (uxst_bind_listener global env l errmsg errlen w)
    as [[[res l'] m'] w'] eqn:Hrun.
  cbn [fst]. destruct w as [tr e]. by_wp Hrun.
  unfold uxst_bind_listener.
  wp_prepare.
  wp_run.
  all: wp_done.
  all: first
    [ apply none_mask_no_flag
    | unfold has_flag;
      rewrite ERR_NONE_empty, Z.lor_0_l, Z.land_lor_distr_l;
      rewrite ?ERR_FATAL_ABORT, ?ERR_RETRYABLE_ABORT, ?ERR_ALERT_ABORT;
      cbn; congruence ].
Qed.

(** C9. [uxst_bind_listeners] invokes [uxst_bind_listener] on the
    listeners of the protocol in list order and returns the bitwise OR of
    the masks; it skips the listeners that remain only when the accumulated
    mask has [ERR_ABORT], and continued only while it had not.
    [uxst_unbind_listeners] invokes [uxst_unbind_listener] on every listener
    of the protocol in list order and returns [ERR_NONE]. *)
Theorem protocol_loops_over_listeners {hd : headers}
    (global : globals) (env : Env) (proto : protocol) (w : world) :
  (forall (errmsg : string) (errlen : Z)
          (res : Z) (proto' : protocol) (errmsg' : string) (w' : world),
     uxst_bind_listeners global env proto errmsg errlen w =
       (res, proto', errmsg', w') ->
     exists (done rest : list listener)
            (outs : list (Z * listener * string)),
       listeners proto = (done ++ rest)%list /\
       bind_in_order global env errlen w errmsg done outs w' /\
       res = accumulate ERR_NONE outs /\
       listeners proto' = (map (fun o => snd (fst o)) outs ++ rest)%list /\
       (rest <> [] -> has_flag res ERR_ABORT) /\
       (forall k, (0 < k < length outs)%nat ->
          ~ has_flag (accumulate ERR_NONE (firstn k outs)) ERR_ABORT)) /\
  (forall (res : Z) (proto' : protocol) (w' : world),
     uxst_unbind_listeners env proto w = (res, proto', w') ->
     res = ERR_NONE /\
     unbind_in_order env w (listeners proto) (listeners proto') w').
Proof.
  split.
  - intros errmsg errlen res proto' errmsg' w' Hrun.
    unfold uxst_bind_listeners, bind in Hrun.
    destruct (bind_each global env (listeners proto) ERR_NONE errmsg errlen w)
      as [[[res1 ls1] m1] w1] eqn:Hloop.
    cbn in Hrun. injection Hrun as <- <- <- <-.
    destruct (bind_each_in_order _ _ _ _ _ _ _ Hloop)
      as (done & rest & outs & H1 & H2 & H3 & H4 & H5 & H6).
    exists done, rest, outs. cbn [listeners]. auto 10.
  - intros res proto' w' Hrun.
    unfold uxst_unbind_listeners, bind in Hrun.
    destruct (unbind_each env (listeners proto) w) as [ls1 w1] eqn:Hloop.
    cbn in Hrun. injection Hrun as <- <- <-.
    split; [reflexivity|]. cbn [listeners].
    apply unbind_each_in_order, Hloop.
Qed.

Lemma protocol_loops_witness :
  exists res proto' errmsg' w',
    uxst_bind_listeners (hd := linux_headers) globals0
        (env_bind (answer 0) (answer 0)) proto0 "" 100 world0 =
      (res, proto', errmsg', w') /\
    exists done rest outs,
      listeners proto0 = (done ++ rest)%list /\
      res = accumulate (ERR_NONE (headers := linux_headers)) outs /\
      listeners proto' = (map (fun o => snd (fst o)) outs ++ rest)%list.
Proof.
  eexists _, _, _, _. split; [vm_compute; reflexivity|].
  lazymatch goal with
  | |- exists _ _ _, _ /\ ?res = _ /\ listeners ?p = _ =>
      assert (Hrun : exists m' w',
                uxst_bind_listeners (hd := linux_headers) globals0
                  (env_bind (answer 0) (answer 0)) proto0 "" 100 world0 =
                (res, p, m', w'))
        by (eexists _, _; vm_compute; reflexivity)
  end.
  destruct Hrun as (m' & w' & Hrun).
  destruct (protocol_loops_over_listeners (hd := linux_headers) globals0
              (env_bind (answer 0) (answer 0)) proto0 world0) as [H _].
  destruct (H _ _ _ _ _ _ Hrun)
    as (done & rest & outs & H1 & _ & H3 & H4 & _).
  exists done, rest, outs. auto.
Defined.

(* ===================================================================== *)
(** * Further properties of the file                                      *)
(* ===================================================================== *)

(** ** Strings, calls of a run, examples *)

Lemma snprintf_nonempty (buf : string) (n : Z) (a b : string) :
  1 < n -> a <> "" -> snprintf buf n (a ++ b) <> "".
Proof.
  intros Hn Ha. unfold snprintf.
  destruct (Z.eqb_spec n 0); [lia|].
  destruct (Z.ltb_spec n 0); [lia|].
  destruct a as [|c a]; [congruence|].
  destruct (Z.to_nat (n - 1)) as [|k] eqn:Hk; [lia|].
  cbn. discriminate.
Qed.

Lemma alert_in_mask {hd : headers} (f : Z) :
  Z.land (Z.lor ERR_NONE (Z.lor f ERR_ALERT)) ERR_ALERT = ERR_ALERT.
Proof. rewrite ERR_NONE_empty, Z.lor_0_l. apply land_lor_same. Qed.

Lemma substring_all (n : nat) (s : string) :
  (String.length s <= n)%nat -> substring 0 n s = s.
Proof.
  revert n. induction s as [|c s IH]; intros [|n] H; cbn in *;
    try reflexivity; try lia.
  f_equal. apply IH. lia.
Qed.

Lemma strlen_append (a b : string) : strlen (a ++ b) = strlen a + strlen b.
Proof.
  unfold strlen. induction a as [|c a IH]; cbn [append String.length].
  - lia.
  - lia.
Qed.

Lemma snprintf_exact (n : Z) (s : string) :
  strlen s < n -> snprintf "" n s = s.
Proof.
  intros H. unfold snprintf, strlen in *.
  destruct (Z.eqb_spec n 0); [lia|].
  destruct (Z.ltb_spec n 0); [lia|].
  apply substring_all. lia.
Qed.

(** The two names have the same length: when the second [snprintf] did
    not truncate, the first did not either. *)
Lemma names_exact {hd : headers} (global : globals) (path : string) :
  strlen (c_str path ++ "." ++ dec (pid global) ++ ".bak") <
    Z.min MAXPATHLEN sizeof_sun_path ->
  temp_name global path = c_str path ++ "." ++ dec (pid global) ++ ".tmp" /\
  back_name global path = c_str path ++ "." ++ dec (pid global) ++ ".bak".
Proof.
  intros H. unfold temp_name, back_name.
  split; apply snprintf_exact; [|exact H].
  rewrite !strlen_append in *. exact H.
Qed.

(** Uses [H : In c (calls w)] on the calls of a run: one goal for each call
    that [c] can be. *)
Ltac in_calls H :=
  unfold calls in H; cbn [w_trace] in H;
  match type of H with
  | In _ (map ev_call (_ ++ ?s)) =>
      is_var s; rewrite map_app in H;
      lazymatch goal with
      | Hs : map ev_call s = _ |- _ => rewrite Hs in H
      end
  | _ => idtac
  end;
  cbn [map app ev_call In] in H;
  repeat (destruct H as [H | H];
          [ first [ discriminate H | injection H as ?; subst | subst ] | ]);
  try contradiction H.

(** Proves [In c (calls w)] for a call of the unwinding that ends the
    trace of [w], or for a call before it. *)
Ltac in_unwinding :=
  unfold calls; cbn [w_trace];
  lazymatch goal with
  | Hs : map ev_call ?s = _ |- In _ (map ev_call (_ ++ ?s)) =>
      rewrite map_app, Hs; apply in_or_app;
      first [ solve [right; in_list] | solve [left; in_list] ]
  | |- _ => solve [in_list]
  end.

(** After the run: the facts on the answers, one goal for each case of the
    disjunctions among them. *)
Ltac answer_facts :=
  repeat (bool_facts;
          lazymatch goal with H : _ \/ _ |- _ => destruct H end);
  bool_facts.

(** Proves that a run shows a cause: an event of its trace, with the facts
    on its answer. *)
Ltac show_cause :=
  lazymatch goal with
  | |- _ \/ _ => first [ solve [left; show_cause] | solve [right; show_cause] ]
  | |- exists _, _ => eexists; show_cause
  | |- In (Ev _ _) _ /\ _ => split; [solve [in_list] | show_cause]
  | |- _ /\ _ => split; show_cause
  | |- In (Ev _ _) _ => solve [in_list]
  | |- In _ (calls _) => solve [in_list]
  | |- In (r_errno _) _ =>
      match goal with
      | E : r_errno _ = _ |- _ => rewrite E; solve [in_list]
      end
  | |- ~ In _ _ => cbn [In]; intuition congruence
  | |- _ => first [ assumption | lia | congruence | reflexivity ]
  end.

(** For the examples: evaluates the run of the goal [run = ?result /\ _],
    keeps the equation as [Hrun] and proves the first part with it. *)
Ltac evaluate_run Hrun :=
  lazymatch goal with
  | |- ?lhs = ?rhs /\ _ =>
      assert (Hrun : lhs = rhs) by (vm_compute; reflexivity);
      split; [exact Hrun|]
  end.

(** ** Listeners *)

(** X1. A successful [uxst_bind_listener] on an assigned listener leaves
    it in the state [LI_LISTEN] with a descriptor between 0 and
    [global.maxsock], its address, options and configuration untouched.
    The descriptor is a listening socket: [listen()] succeeded on it, or it
    was supplied and [getsockopt(SO_ACCEPTCONN)] reported it as listening
    already.  It was passed to [fd_insert] with the [bind_thread] of the
    listener, it is marked exported exactly when the listener is not
    [LI_O_INHERITED], and no descriptor was closed. *)
Theorem bind_success_listens {hd : headers}
    (global : globals) (env : Env)
    (l : listener) (errmsg : string) (errlen : Z)
    (res : Z) (l' : listener) (errmsg' : string) (w' : world) :
  uxst_bind_listener global env l errmsg errlen world0 =
    (res, l', errmsg', w') ->
  li_state l = LI_ASSIGNED ->
  res = ERR_NONE ->
  li_state l' = LI_LISTEN /\
  0 <= li_fd l' < maxsock global /\
  li_addr l' = li_addr l /\ li_options l' = li_options l /\
  li_bind_conf l' = li_bind_conf l /\
  ((exists backlog r,
      In (Ev (sys_listen (li_fd l') backlog) r) (w_trace w') /\
      0 <= r_ret r) \/
   (exists r,
      In (Ev (sys_getsockopt_acceptconn (li_fd l')) r) (w_trace w') /\
      r_ret r <> -1 /\ r_out r <> 0 /\
      ~ In sys_socket (calls w'))) /\
  In (hap_fd_insert (li_fd l') (bind_thread (li_bind_conf l))) (calls w') /\
  (In (hap_fdtab_exported (li_fd l')) (calls w') <->
   Z.land (li_options l) LI_O_INHERITED = 0) /\
  forallb (fun c => negb (is_close c)) (calls w') = true.
Proof.
  intros Hrun Hst. by_wp Hrun.
  unfold uxst_bind_listener, world0.
  rewrite Hst, Z.eqb_refl.
  wp_prepare.
  wp_run.
  all: wp_done; intros Hres.
  all: try (exfalso; revert Hres;
         first [ apply fatal_mask_not_none | apply retryable_mask_not_none ]).
  all: bool_facts.
  all: repeat lazymatch goal with
       | |- _ /\ _ => split
       | |- _ <-> _ => split
       end.
  all: try reflexivity; try lia.
  all: try solve [in_list].
  all: try lazymatch goal with
       | |- _ \/ _ =>
           first
             [ left; eexists _, _; split; [in_list | lia]
             | right; eexists; split; [in_list|];
               lazymatch goal with
               | H : truthy (if ?c then _ else _) = true |- _ =>
                   unfold truthy in H; destruct c eqn:?; bool_facts;
                   [ now elim H | ]
               end;
               repeat split; try assumption;
               cbn [calls w_trace map ev_call app In];
               intuition discriminate ]
       | |- In _ _ -> _ =>
           intros Hin;
           lazymatch goal with
           | H : truthy _ = _ |- _ => unfold truthy in H; bool_facts
           end;
           first [ assumption
                 | exfalso; cbn [calls w_trace map ev_call app In] in Hin;
                   intuition discriminate ]
       | |- _ = 0 -> In _ _ =>
           intros Hz;
           lazymatch goal with
           | H : truthy _ = _ |- _ => unfold truthy in H; bool_facts
           end;
           first [ solve [in_list] | contradiction ]
       end.
Qed.

Lemma bind_success_listens_witness :
  exists res l' errmsg' w',
    uxst_bind_listener (hd := linux_headers) globals0
        (env_bind (answer 0) (answer 0)) listener0 "" 100 world0 =
      (res, l', errmsg', w') /\
    li_state l' = LI_LISTEN (headers := linux_headers) /\
    0 <= li_fd l' < maxsock globals0.
Proof.
  eexists _, _, _, _. evaluate_run Hrun.
  apply bind_success_listens in Hrun; [|reflexivity|reflexivity].
  destruct Hrun as (H1 & H2 & _). split; assumption.
Defined.

(** X2. [uxst_bind_listener] returns [ERR_NONE], [ERR_FATAL | ERR_ALERT]
    or [ERR_RETRYABLE | ERR_ALERT] and nothing else.  When it does not
    return [ERR_NONE] the mask has [ERR_ALERT], the listener is still
    [LI_ASSIGNED], and the message is not empty as soon as the buffer holds
    more than the final zero. *)
Theorem bind_returns_documented_masks {hd : headers}
    (global : globals) (env : Env)
    (l : listener) (errmsg : string) (errlen : Z)
    (res : Z) (l' : listener) (errmsg' : string) (w' : world) :
  uxst_bind_listener global env l errmsg errlen world0 =
    (res, l', errmsg', w') ->
  (res = ERR_NONE \/ res = Z.lor ERR_FATAL ERR_ALERT \/
   res = Z.lor ERR_RETRYABLE ERR_ALERT) /\
  (res <> ERR_NONE ->
     Z.land res ERR_ALERT = ERR_ALERT /\
     li_state l' = LI_ASSIGNED /\
     (1 < errlen -> errmsg' <> "")).
Proof.
  intros Hrun. by_wp Hrun.
  unfold uxst_bind_listener, world0.
  wp_prepare.
  wp_run.
  all: wp_done.
  all: split;
    [ rewrite ?ERR_NONE_empty, ?Z.lor_0_l; auto
    | intros Hres; try (exfalso; apply Hres; reflexivity) ].
  all: split; [apply alert_in_mask|].
  all: split; [bool_facts; assumption|].
  all: intros Hlen; unfold error_message; read_fields.
  all: replace (truthy errlen) with true
         by (symmetry; unfold truthy; apply negb_true_iff, Z.eqb_neq; lia).
  all: split_values; apply snprintf_nonempty; try assumption; discriminate.
Qed.

Lemma bind_returns_documented_masks_witness :
  exists res l' errmsg' w',
    uxst_bind_listener (hd := linux_headers) globals0
        (env_bind (failure EADDRINUSE) (answer 0)) listener0 "" 100 world0 =
      (res, l', errmsg', w') /\
    res = Z.lor (ERR_RETRYABLE (headers := linux_headers)) ERR_ALERT /\
    li_state l' = LI_ASSIGNED (headers := linux_headers) /\
    errmsg' <> "".
Proof.
  eexists _, _, _, _. evaluate_run Hrun.
  apply bind_returns_documented_masks in Hrun.
  destruct Hrun as [_ H]. split; [reflexivity|].
  destruct H as (_ & H2 & H3); [discriminate|].
  split; [exact H2|]. apply H3. reflexivity.
Defined.

(** X3. [uxst_bind_listener] never writes past [errlen]: with [errlen]
    zero the buffer is left as it was, on every path, and with a positive
    [errlen] the message it leaves is shorter than [errlen], the final zero
    included. *)
Theorem bind_message_fits_buffer {hd : headers}
    (global : globals) (env : Env)
    (l : listener) (errmsg : string) (errlen : Z)
    (res : Z) (l' : listener) (errmsg' : string) (w' : world) :
  uxst_bind_listener global env l errmsg errlen world0 =
    (res, l', errmsg', w') ->
  (errlen = 0 -> errmsg' = errmsg) /\
  (0 < errlen -> strlen errmsg' < errlen).
Proof.
  intros Hrun. by_wp Hrun.
  unfold uxst_bind_listener, world0.
  wp_prepare.
  wp_run.
  all: wp_done.
  all: split; intros Hlen.
  all: try (subst errlen; reflexivity).
  all: assert (Ht : truthy errlen = true)
         by (unfold truthy; apply negb_true_iff, Z.eqb_neq; lia).
  all: unfold error_message; read_fields; rewrite Ht.
  all: first [ apply snprintf_bounded, Hlen | exact Hlen ].
Qed.

Lemma bind_message_fits_buffer_witness :
  exists res l' errmsg' w',
    uxst_bind_listener (hd := linux_headers) globals0
        (env_bind (failure EADDRINUSE) (answer 0)) listener0 "" 10 world0 =
      (res, l', errmsg', w') /\
    errmsg' = "cannot li" /\ strlen errmsg' < 10.
Proof.
  eexists _, _, _, _. evaluate_run Hrun.
  split; [reflexivity|].
  apply bind_message_fits_buffer in Hrun. destruct Hrun as [_ H].
  apply H. reflexivity.
Defined.

(** X4. The only entries of the file system that [uxst_bind_listener]
    touches are the path of the listener, [<path>.<pid>.tmp] and
    [<path>.<pid>.bak], with the names in full: a name that [snprintf] would
    truncate is refused before any call.  It touches them only for a
    listener on a path.  The socket is bound to [<path>.<pid>.tmp], which
    fits [sun_path] with its final zero, or to the abstract name of the
    listener. *)
Theorem bind_names_exact {hd : headers}
    (global : globals) (env : Env)
    (l : listener) (errmsg : string) (errlen : Z)
    (res : Z) (l' : listener) (errmsg' : string) (w' : world) :
  uxst_bind_listener global env l errmsg errlen world0 =
    (res, l', errmsg', w') ->
  let path := c_str (li_addr l) in
  let tempname := path ++ "." ++ dec (pid global) ++ ".tmp" in
  let backname := path ++ "." ++ dec (pid global) ++ ".bak" in
  let bc := li_bind_conf l in
  (forall c, In c (calls w') -> on_file_system c = true ->
     first_byte (li_addr l) = true /\
     In c [sys_unlink tempname; sys_unlink backname; sys_unlink path;
           sys_link path backname;
           sys_rename tempname path; sys_rename backname path;
           sys_chown tempname (ux_uid bc) (ux_gid bc);
           sys_chmod tempname (ux_mode bc)]) /\
  (forall fd addr, In (sys_bind fd addr) (calls w') ->
     addr = (if first_byte (li_addr l) then tempname else li_addr l) /\
     (first_byte (li_addr l) = true -> strlen addr < sizeof_sun_path)).
Proof.
  intros Hrun. by_wp Hrun.
  unfold uxst_bind_listener, world0.
  wp_prepare.
  wp_run.
  all: wp_done.
  all: split; [intros c Hin Hfs | intros fd0 addr0 Hin].
  all: in_calls Hin.
  all: try discriminate.
  all: try lazymatch goal with
       | H3 : (strlen ?t <? 0) || (sizeof_sun_path <=? strlen ?t) = false,
         H4 : (strlen ?b <? 0) ||
              (Z.min MAXPATHLEN sizeof_sun_path <=? strlen ?b) = false |- _ =>
           apply orb_false_iff in H3, H4;
           destruct H3 as [_ H3], H4 as [_ H4];
           apply Z.leb_gt in H3, H4;
           destruct (names_exact global _ H4) as [Et Eb];
           rewrite ?Et, ?Eb;
           rewrite ?substring_all by (unfold strlen in H3; lia)
       end.
  all: lazymatch goal with
       | |- _ /\ In _ _ =>
           split; [ first [ reflexivity | assumption ] | in_list ]
       | |- _ /\ (_ -> _) =>
           split; [ reflexivity | intros Hfb; first [ assumption | discriminate ] ]
       end.
Qed.

Lemma bind_names_exact_witness :
  exists res l' errmsg' w',
    uxst_bind_listener (hd := linux_headers) globals0
        (env_bind (answer 0) (answer 0)) listener0 "" 100 world0 =
      (res, l', errmsg', w') /\
    In (sys_bind 7 "/run/hap.sock.4242.tmp") (calls w') /\
    forall fd addr, In (sys_bind fd addr) (calls w') ->
      addr = "/run/hap.sock.4242.tmp".
Proof.
  eexists _, _, _, _. evaluate_run Hrun.
  split; [in_list|].
  apply bind_names_exact in Hrun. destruct Hrun as [_ H].
  intros fd addr Hin. destruct (H fd addr Hin) as [E _]. exact E.
Defined.

(** X5. When the descriptor is supplied, by the listener or by
    [sock_find_compatible_fd], [uxst_bind_listener] creates no socket, binds
    nothing and touches no entry of the file system; every call on a
    descriptor is on the supplied one; [listen()] is skipped when
    [getsockopt(SO_ACCEPTCONN)] reports the socket as listening.  The
    listener keeps the descriptor, also when the call fails, in which case
    the descriptor has been closed. *)
Theorem bind_supplied_descriptor {hd : headers}
    (global : globals) (env : Env)
    (l : listener) (errmsg : string) (errlen : Z)
    (res : Z) (l' : listener) (errmsg' : string) (w' : world) (fd : Z) :
  uxst_bind_listener global env l errmsg errlen world0 =
    (res, l', errmsg', w') ->
  (fd = li_fd l \/
   li_fd l = -1 /\
   exists r, In (Ev (hap_sock_find_compatible_fd l) r) (w_trace w') /\
             fd = r_ret r) ->
  0 <= fd ->
  (forall c, In c (calls w') ->
     c <> sys_socket /\ (forall fd' addr, c <> sys_bind fd' addr) /\
     on_file_system c = false /\
     (forall fd', call_fd c = Some fd' -> fd' = fd)) /\
  (forall r backlog,
     In (Ev (sys_getsockopt_acceptconn fd) r) (w_trace w') ->
     r_ret r <> -1 -> r_out r <> 0 ->
     ~ In (sys_listen fd backlog) (calls w')) /\
  li_fd l' = fd /\
  (res <> ERR_NONE -> In (sys_close fd) (calls w')).
Proof.
  intros Hrun. by_wp Hrun.
  unfold uxst_bind_listener, world0.
  wp_prepare.
  wp_run.
  all: wp_done.
  all: intros [-> | [Hfd (rf & Hrf & ->)]] Hpos.
  all: try in_trace Hrf.
  all: bool_facts; try lia.
  all: split; [|split; [|split]].
  all: lazymatch goal with
       | |- forall c, In c _ -> _ =>
           intros c Hin; in_calls Hin;
           (split; [discriminate|]); (split; [intros; discriminate|]);
           (split; [reflexivity|]);
           cbn [call_fd]; intros fd' Hfd'; congruence
       | |- forall r backlog, _ =>
           intros rg backlog Hin Hret Hout Hl; in_trace Hin;
           in_calls Hl;
           lazymatch goal with
           | H : truthy (if ?c then _ else _) = false |- _ =>
               unfold truthy in H; destruct c eqn:?; bool_facts; congruence
           end
       | |- _ = _ => reflexivity
       | |- _ -> In _ _ =>
           intros Hres;
           first [ exfalso; apply Hres; reflexivity | in_unwinding ]
       end.
Qed.

Lemma bind_supplied_descriptor_witness :
  exists res l' errmsg' w',
    uxst_bind_listener (hd := linux_headers) globals0
        (env_bind (answer 0) (answer 0)) listener_supplied "" 100 world0 =
      (res, l', errmsg', w') /\
    li_fd l' = 5 /\
    forall c, In c (calls w') ->
      c <> sys_socket /\ on_file_system c = false.
Proof.
  eexists _, _, _, _. evaluate_run Hrun.
  apply (@bind_supplied_descriptor linux_headers globals0
           (env_bind (answer 0) (answer 0)) listener_supplied "" 100
           _ _ _ _ 5) in Hrun;
    [ | left; reflexivity | discriminate ].
  destruct Hrun as (H1 & _ & H3 & _). split; [exact H3|].
  intros c Hin. destruct (H1 c Hin) as (Ha & _ & Hb & _).
  split; assumption.
Defined.

(** X6. Every call of [uxst_bind_listener] on a descriptor is on one and
    the same descriptor: the one that [socket()] returned, [socket()] being
    called once at most, or the one of the listener when it has one; it is
    the descriptor of the listener after a success. *)
Theorem bind_acts_on_one_descriptor {hd : headers}
    (global : globals) (env : Env)
    (l : listener) (errmsg : string) (errlen : Z)
    (res : Z) (l' : listener) (errmsg' : string) (w' : world) :
  uxst_bind_listener global env l errmsg errlen world0 =
    (res, l', errmsg', w') ->
  exists fd,
    (forall c fd', In c (calls w') -> call_fd c = Some fd' -> fd' = fd) /\
    (forall r r', In (Ev sys_socket r) (w_trace w') ->
       In (Ev sys_socket r') (w_trace w') -> r' = r /\ fd = r_ret r) /\
    (0 <= li_fd l -> fd = li_fd l) /\
    (li_state l = LI_ASSIGNED -> res = ERR_NONE -> li_fd l' = fd).
Proof.
  intros Hrun. by_wp Hrun.
  unfold uxst_bind_listener, world0.
  wp_prepare.
  wp_run.
  all: wp_done.
  all: repeat match goal with
       | H : ?s = (_ ++ _)%list |- _ => is_var s; clear H
       end.
  all: first
    [ lazymatch goal with
      | |- context [Ev sys_socket ?r] => exists (r_ret r)
      end
    | lazymatch goal with
      | |- context [sys_fcntl_nonblock ?x] => exists x
      end
    | lazymatch goal with
      | H : map ev_call _ = [sys_close ?x] |- _ => exists x
      end
    | exists (li_fd l) ].
  all: split; [|split; [|split]].
  all: lazymatch goal with
       | |- forall c fd', In c _ -> _ =>
           intros c fd' Hin Hfd; in_calls Hin; cbn [call_fd] in Hfd;
           congruence
       | |- forall r r', In _ _ -> _ =>
           intros rs rs' Hin Hin'; in_trace Hin; in_trace Hin';
           split; reflexivity
       | |- 0 <= _ -> _ => intros Hpos; bool_facts; first [ reflexivity | lia ]
       | |- _ -> _ -> _ =>
           intros Hst Hres; bool_facts;
           first [ reflexivity | contradiction
                 | exfalso; revert Hres;
                   first [ apply fatal_mask_not_none
                         | apply retryable_mask_not_none ] ]
       end.
Qed.

Lemma bind_acts_on_one_descriptor_witness :
  exists res l' errmsg' w',
    uxst_bind_listener (hd := linux_headers) globals0
        (env_bind (failure EADDRINUSE) (answer 0)) listener0 "" 100 world0 =
      (res, l', errmsg', w') /\
    forall c fd, In c (calls w') -> call_fd c = Some fd -> fd = 7.
Proof.
  eexists _, _, _, _. evaluate_run Hrun.
  apply bind_acts_on_one_descriptor in Hrun.
  destruct Hrun as (fd & H1 & H2 & _).
  destruct (H2 (answer 7) (answer 7)) as [_ ->]; [in_list | in_list |].
  exact H1.
Defined.

(** X7. [uxst_bind_listener] never closes twice: a run has one
    [close()] at most, none when it returns [ERR_NONE], and when a run that
    made a call on a descriptor fails, its one [close()] is on that
    descriptor. *)
Theorem bind_closes_at_most_once {hd : headers}
    (global : globals) (env : Env)
    (l : listener) (errmsg : string) (errlen : Z)
    (res : Z) (l' : listener) (errmsg' : string) (w' : world) :
  uxst_bind_listener global env l errmsg errlen world0 =
    (res, l', errmsg', w') ->
  (length (filter is_close (calls w')) <= 1)%nat /\
  (res = ERR_NONE -> filter is_close (calls w') = []) /\
  (forall c fd,
     In c (calls w') -> call_fd c = Some fd -> res <> ERR_NONE ->
     filter is_close (calls w') = [sys_close fd]).
Proof.
  intros Hrun. by_wp Hrun.
  unfold uxst_bind_listener, world0.
  wp_prepare.
  wp_run.
  all: wp_done.
  all: repeat match goal with
       | H : ?s = (_ ++ _)%list |- _ => is_var s; clear H
       end.
  all: split; [|split].
  all: try (intros c fd0 Hin Hfd Hres; in_calls Hin; cbn [call_fd] in Hfd;
            first [ discriminate Hfd | injection Hfd as <- ]).
  all: try intros Hres.
  all: try (exfalso; revert Hres;
         first [ apply fatal_mask_not_none | apply retryable_mask_not_none ]).
  all: try (exfalso; apply Hres; reflexivity).
  all: unfold calls; cbn [w_trace];
       rewrite ?map_app;
       repeat match goal with
       | Hs : map ev_call ?s = _ |- context [map ev_call ?s] => rewrite Hs
       end;
       cbn [map app ev_call filter is_close length].
  all: first [ reflexivity | lia ].
Qed.

Lemma bind_closes_at_most_once_witness :
  exists res l' errmsg' w',
    uxst_bind_listener (hd := linux_headers) globals0
        (env_bind (failure EADDRINUSE) (answer 0)) listener0 "" 100 world0 =
      (res, l', errmsg', w') /\
    filter is_close (calls w') = [sys_close 7].
Proof.
  eexists _, _, _, _. evaluate_run Hrun.
  apply bind_closes_at_most_once in Hrun.
  destruct Hrun as (_ & _ & H).
  apply (H (sys_fcntl_nonblock 7)); [in_list | reflexivity | discriminate].
Defined.

(** X8. The calls of a successful [uxst_bind_listener] that creates the
    socket of a listener on a path, in order: the stale temporary and backup
    names are unlinked, the live path is linked to the backup name, the
    socket is created, made non-blocking and bound to the temporary name,
    its owner and mode are changed if the configuration asks for it, it is
    put to listen, and only then is the temporary name renamed to the live
    path and the backup removed; the descriptor is registered last. *)
Theorem bind_switch_sequence {hd : headers}
    (global : globals) (env : Env)
    (l : listener) (errmsg : string) (errlen : Z)
    (res : Z) (l' : listener) (errmsg' : string) (w' : world) :
  uxst_bind_listener global env l errmsg errlen world0 =
    (res, l', errmsg', w') ->
  li_state l = LI_ASSIGNED ->
  first_byte (li_addr l) = true ->
  In sys_socket (calls w') ->
  res = ERR_NONE ->
  let path := c_str (li_addr l) in
  let tempname := path ++ "." ++ dec (pid global) ++ ".tmp" in
  let backname := path ++ "." ++ dec (pid global) ++ ".bak" in
  let bc := li_bind_conf l in
  let fd := li_fd l' in
  exists (found : listener) (backlog : Z),
    calls w' =
      ((if li_fd l =? -1 then [hap_sock_find_compatible_fd l] else []) ++
       [sys_unlink tempname; sys_unlink backname; sys_link path backname;
        sys_socket; sys_fcntl_nonblock fd; sys_bind fd tempname] ++
       (if negb (ux_uid bc =? -1) || negb (ux_gid bc =? -1)
        then [sys_chown tempname (ux_uid bc) (ux_gid bc)] else []) ++
       (if negb (ux_mode bc =? 0)
        then [sys_chmod tempname (ux_mode bc)] else []) ++
       [sys_getsockopt_acceptconn fd; hap_listener_backlog found;
        sys_listen fd backlog;
        sys_rename tempname path; sys_unlink backname;
        hap_fd_insert fd (bind_thread bc)] ++
       (if Z.land (li_options l) LI_O_INHERITED =? 0
        then [hap_fdtab_exported fd] else []))%list.
Proof.
  intros Hrun Hst Hfb. by_wp Hrun.
  unfold uxst_bind_listener, world0.
  rewrite Hst, Z.eqb_refl.
  wp_prepare.
  wp_run.
  all: wp_done; intros Hsock Hres.
  all: try (exfalso; revert Hres;
         first [ apply fatal_mask_not_none | apply retryable_mask_not_none ]).
  all: try solve [in_calls Hsock].
  all: clear Hsock; eexists _, _.
  all: lazymatch goal with
       | H3 : (strlen ?t <? 0) || (sizeof_sun_path <=? strlen ?t) = false,
         H4 : (strlen ?b <? 0) ||
              (Z.min MAXPATHLEN sizeof_sun_path <=? strlen ?b) = false |- _ =>
           apply orb_false_iff in H3, H4;
           destruct H3 as [_ H3], H4 as [_ H4];
           apply Z.leb_gt in H3, H4;
           destruct (names_exact global _ H4) as [Et Eb];
           rewrite ?Et, ?Eb;
           rewrite ?substring_all by (unfold strlen in H3; lia)
       end.
  all: unfold calls, truthy in *; cbn [w_trace map app ev_call].
  all: repeat match goal with
       | E : ?c = _ |- context [if ?c then _ else _] => rewrite E
       end.
  all: split_values; bool_facts; try reflexivity; try congruence.
Qed.

Lemma bind_switch_sequence_witness :
  exists res l' errmsg' w',
    uxst_bind_listener (hd := linux_headers) globals0
        (env_bind (answer 0) (answer 0)) listener0 "" 100 world0 =
      (res, l', errmsg', w') /\
    exists found backlog,
      calls w' =
        [hap_sock_find_compatible_fd listener0;
         sys_unlink "/run/hap.sock.4242.tmp";
         sys_unlink "/run/hap.sock.4242.bak";
         sys_link "/run/hap.sock" "/run/hap.sock.4242.bak";
         sys_socket; sys_fcntl_nonblock 7;
         sys_bind 7 "/run/hap.sock.4242.tmp";
         sys_getsockopt_acceptconn 7; hap_listener_backlog found;
         sys_listen 7 backlog;
         sys_rename "/run/hap.sock.4242.tmp" "/run/hap.sock";
         sys_unlink "/run/hap.sock.4242.bak";
         hap_fd_insert 7 0; hap_fdtab_exported 7].
Proof.
  eexists _, _, _, _. evaluate_run Hrun.
  apply bind_switch_sequence in Hrun;
    [ | reflexivity | reflexivity | in_list | reflexivity ].
  destruct Hrun as (found & backlog & H).
  exists found, backlog. exact H.
Defined.

(** X9. Once [link()] has preserved the previous socket, or has found none
    ([ENOENT]), [uxst_bind_listener] goes on to [socket()]: the test on the
    length of [tempname] that stands between the two never fails, as the
    comment of the source says. *)
Theorem bind_backup_then_socket {hd : headers}
    (global : globals) (env : Env)
    (l : listener) (errmsg : string) (errlen : Z)
    (res : Z) (l' : listener) (errmsg' : string) (w' : world)
    (oldpath newpath : string) (r : reply) :
  uxst_bind_listener global env l errmsg errlen world0 =
    (res, l', errmsg', w') ->
  In (Ev (sys_link oldpath newpath) r) (w_trace w') ->
  0 <= r_ret r \/ r_errno r = ENOENT ->
  In sys_socket (calls w').
Proof.
  intros Hrun. by_wp Hrun.
  unfold uxst_bind_listener, world0.
  wp_prepare.
  wp_run.
  all: wp_done; intros Hin Hok; in_trace Hin.
  all: try in_unwinding.
  all: bool_facts.
  all: try lazymatch goal with
       | H : sizeof_sun_path <= strlen (temp_name ?g ?p) |- _ =>
           exfalso; unfold temp_name in H;
           pose proof (snprintf_not_longer (Z.min MAXPATHLEN sizeof_sun_path)
                         (c_str p ++ "." ++ dec (pid g) ++ ".tmp"));
           repeat lazymatch goal with
           | H' : _ \/ _ |- _ => destruct H'
           end; lia
       end.
  all: destruct Hok; [lia | congruence].
Qed.

Lemma bind_backup_then_socket_witness :
  exists res l' errmsg' w',
    uxst_bind_listener (hd := linux_headers) globals0
        (env_bind (answer 0) (answer 0)) listener0 "" 100 world0 =
      (res, l', errmsg', w') /\
    In (Ev (sys_link "/run/hap.sock" "/run/hap.sock.4242.bak") (answer 0))
       (w_trace w') /\
    In sys_socket (calls w').
Proof.
  eexists _, _, _, _. evaluate_run Hrun.
  split; [in_list|].
  apply (@bind_backup_then_socket linux_headers globals0
           (env_bind (answer 0) (answer 0)) listener0 "" 100 _ _ _ _
           "/run/hap.sock" "/run/hap.sock.4242.bak" (answer 0)) in Hrun;
    [ exact Hrun | in_list | left; discriminate ].
Defined.

(** X10. A failed [uxst_bind_listener] leaves the listener as it was, but
    for the descriptor that [sock_find_compatible_fd] returned, which stays
    in it.  A socket that the call created is closed and its descriptor is
    not stored in the listener; and no descriptor is passed to
    [fd_insert]. *)
Theorem bind_failure_keeps_listener {hd : headers}
    (global : globals) (env : Env)
    (l : listener) (errmsg : string) (errlen : Z)
    (res : Z) (l' : listener) (errmsg' : string) (w' : world) :
  uxst_bind_listener global env l errmsg errlen world0 =
    (res, l', errmsg', w') ->
  res <> ERR_NONE ->
  (l' = l \/
   li_fd l = -1 /\
   exists r, In (Ev (hap_sock_find_compatible_fd l) r) (w_trace w') /\
             l' = set_li_fd l (r_ret r)) /\
  (forall r, In (Ev sys_socket r) (w_trace w') ->
     li_fd l' < 0 /\
     (0 <= r_ret r -> In (sys_close (r_ret r)) (calls w'))) /\
  (forall fd t, ~ In (hap_fd_insert fd t) (calls w')).
Proof.
  intros Hrun. by_wp Hrun.
  unfold uxst_bind_listener, world0.
  wp_prepare.
  wp_run.
  all: wp_done; intros Hres.
  all: try (exfalso; apply Hres; reflexivity).
  all: split; [|split].
  all: lazymatch goal with
       | |- _ \/ _ =>
           first [ left; reflexivity
                 | right; split; [bool_facts; assumption|];
                   eexists; split; [solve [in_list] | reflexivity] ]
       | |- forall r, In _ _ -> _ =>
           intros rs Hin; in_trace Hin; bool_facts;
           (split; [lia|]); intros Hge;
           first [ lia | in_unwinding ]
       | |- forall fd t, ~ In _ _ =>
           intros fd0 t0 Hin; in_calls Hin
       end.
Qed.

Lemma bind_failure_keeps_listener_witness :
  exists res l' errmsg' w',
    uxst_bind_listener (hd := linux_headers) globals0
        (env_bind (failure EADDRINUSE) (answer 0)) listener0 "" 100 world0 =
      (res, l', errmsg', w') /\
    li_fd l' < 0 /\ In (sys_close 7) (calls w').
Proof.
  eexists _, _, _, _. evaluate_run Hrun.
  apply bind_failure_keeps_listener in Hrun; [|discriminate].
  destruct Hrun as (_ & H & _).
  destruct (H (answer 7)) as [H1 H2]; [in_list|].
  split; [exact H1|]. apply H2. discriminate.
Defined.

(** X11. The message of a failed [uxst_bind_listener] names what failed:
    it is made of a reason text for which the trace shows the cause
    ([bind_cause]: the name is too long and nothing was called, or the call
    named by the text is in the trace with an answer that is a failure),
    followed by the descriptor when it was supplied and by the path
    otherwise. *)
Theorem bind_failure_names_its_cause {hd : headers}
    (global : globals) (env : Env)
    (l : listener) (errmsg : string) (errlen : Z)
    (res : Z) (l' : listener) (errmsg' : string) (w' : world) :
  uxst_bind_listener global env l errmsg errlen world0 =
    (res, l', errmsg', w') ->
  res <> ERR_NONE ->
  exists reason,
    bind_cause global l (w_trace w') reason /\
    (errlen <> 0 ->
     errmsg' =
       snprintf "" errlen
         (reason ++
          (if 0 <=? li_fd l' then " [fd " ++ dec (li_fd l') ++ "]"
           else " [" ++ c_str (li_addr l) ++ "]"))).
Proof.
  intros Hrun. by_wp Hrun.
  unfold uxst_bind_listener, world0.
  wp_prepare.
  wp_run.
  all: wp_done; intros Hres.
  all: try (exfalso; apply Hres; reflexivity).
  all: lazymatch goal with
       | |- context [failing _ _ ?m] => exists m
       end.
  all: split;
    [ cbn [w_trace]
    | intros Hlen;
      assert (Ht : truthy errlen = true)
        by (unfold truthy; apply negb_true_iff, Z.eqb_neq, Hlen);
      unfold error_message; read_fields; rewrite Ht;
      repeat match goal with
      | E : (0 <=? _) = _ |- _ => rewrite E
      end;
      reflexivity ].
  (* the test on the length of [tempname] never fails *)
  all: try lazymatch goal with
       | H : (sizeof_sun_path <=? strlen (temp_name ?g ?p)) = true |- _ =>
           exfalso; bool_facts; unfold temp_name in H;
           pose proof (snprintf_not_longer (Z.min MAXPATHLEN sizeof_sun_path)
                         (c_str p ++ "." ++ dec (pid g) ++ ".tmp"));
           lia
       end.
  all: bool_facts.
  all: lazymatch goal with
       | |- bind_cause _ _ _ msg_name_too_long =>
           apply cause_name_too_long;
           [ assumption
           | repeat lazymatch goal with H : _ \/ _ |- _ => destruct H end;
             rewrite ?strlen_append in *;
             replace (strlen ".bak") with (strlen ".tmp") in * by reflexivity;
             unfold strlen in *; lia
           | intros c Hin; cbn [map app ev_call In] in Hin;
             first [ contradiction | intuition congruence ] ]
       | |- bind_cause _ _ _ msg_cannot_unlink =>
           eapply cause_unlink; [reflexivity | lia | assumption]
       | |- bind_cause _ _ _ msg_cannot_preserve =>
           eapply cause_link; [reflexivity | lia | assumption]
       | |- bind_cause _ _ _ msg_cannot_create =>
           eapply cause_socket; [solve [in_list] | lia]
       | |- bind_cause _ _ _ msg_not_enough_sockets =>
           eapply cause_maxsock;
           [ in_unwinding | lia | intros fd' Hin; in_calls Hin ]
       | |- bind_cause _ _ _ msg_cannot_nonblock =>
           eapply cause_nonblock; [solve [in_list] | assumption]
       | |- bind_cause _ _ _ msg_cannot_listen_socket =>
           eapply cause_bind_in_use; [solve [in_list] | lia | assumption]
       | |- bind_cause _ _ _ msg_cannot_bind =>
           eapply cause_bind; [solve [in_list] | lia | assumption]
       | |- bind_cause _ _ _ msg_cannot_chown =>
           first [ eapply cause_chmod; [solve [in_list] | assumption]
                 | eapply cause_chown; [solve [in_list] | assumption] ]
       | |- bind_cause _ _ _ msg_cannot_listen =>
           eapply cause_listen; [solve [in_list] | lia]
       | |- bind_cause _ _ (((?pre ++ [Ev (sys_rename ?o ?n) ?r]) ++ [?ev2])
                              ++ ?s) msg_cannot_switch =>
           apply (@cause_rename _ _ _ _ pre ([ev2] ++ s)%list o n r);
           [ reflexivity
           | intros o' n' Hin; cbn [map app ev_call In] in Hin;
             intuition discriminate
           | lia ]
       end.
Qed.

Lemma bind_failure_names_its_cause_witness :
  exists res l' errmsg' w',
    uxst_bind_listener (hd := linux_headers) globals0
        (env_bind (failure EADDRINUSE) (answer 0)) listener0 "" 100 world0 =
      (res, l', errmsg', w') /\
    errmsg' = "cannot listen to socket [/run/hap.sock]" /\
    exists reason,
      bind_cause (hd := linux_headers) globals0 listener0 (w_trace w')
        reason.
Proof.
  eexists _, _, _, _. evaluate_run Hrun.
  split; [reflexivity|].
  apply bind_failure_names_its_cause in Hrun; [|discriminate].
  destruct Hrun as (reason & H & _). exists reason. exact H.
Defined.

(** X12. After a [uxst_bind_listener] that returned [ERR_NONE], a second
    one on the resulting listener makes no call, returns [ERR_NONE] and
    leaves the listener as it is; it only empties the message.  The states
    [LI_LISTEN] and [LI_ASSIGNED] are taken to differ. *)
Theorem bind_again_is_noop {hd : headers}
    (global : globals) (env : Env)
    (l : listener) (errmsg : string) (errlen : Z)
    (l' : listener) (errmsg' : string) (w' : world)
    (errmsg2 : string) (errlen2 : Z) :
  LI_LISTEN <> LI_ASSIGNED ->
  uxst_bind_listener global env l errmsg errlen world0 =
    (ERR_NONE, l', errmsg', w') ->
  uxst_bind_listener global env l' errmsg2 errlen2 w' =
    (ERR_NONE, l', if errlen2 =? 0 then errmsg2 else "", w').
Proof.
  intros Hne Hrun.
  assert (Hs : li_state l' <> LI_ASSIGNED).
  { remember ERR_NONE as res eqn:Hres in Hrun.
    revert Hres. by_wp Hrun.
    unfold uxst_bind_listener, world0.
    wp_prepare.
    wp_run.
    all: wp_done; intros Hres.
    all: try (exfalso; revert Hres;
           first [ apply fatal_mask_not_none | apply retryable_mask_not_none ]).
    all: bool_facts; assumption. }
  unfold uxst_bind_listener.
  apply Z.eqb_neq in Hs. rewrite Hs. unfold truthy.
  destruct (errlen2 =? 0); reflexivity.
Qed.

Lemma bind_again_is_noop_witness :
  exists l' errmsg' w',
    uxst_bind_listener (hd := linux_headers) globals0
        (env_bind (answer 0) (answer 0)) listener0 "" 100 world0 =
      (ERR_NONE (headers := linux_headers), l', errmsg', w') /\
    uxst_bind_listener (hd := linux_headers) globals0
        (env_bind (answer 0) (answer 0)) l' "stale" 100 w' =
      (ERR_NONE (headers := linux_headers), l', "", w').
Proof.
  eexists _, _, _. evaluate_run Hrun.
  apply (bind_again_is_noop (hd := linux_headers)) with
    (errmsg2 := "stale") (errlen2 := 100) in Hrun;
    [ exact Hrun | discriminate ].
Defined.

(** ** The protocol *)

Lemma no_flag_lor (a b f : Z) :
  ~ has_flag a f -> ~ has_flag b f -> ~ has_flag (Z.lor a b) f.
Proof.
  unfold has_flag. intros Ha Hb.
  assert (Ea : Z.land a f = 0) by (destruct (Z.eq_dec (Z.land a f) 0); tauto).
  assert (Eb : Z.land b f = 0) by (destruct (Z.eq_dec (Z.land b f) 0); tauto).
  rewrite Z.land_lor_distr_l, Ea, Eb. cbn. congruence.
Qed.

Lemma last_cons_default {A : Type} (l : list A) (x d d' : A) :
  last (x :: l) d = last (x :: l) d'.
Proof.
  revert x. induction l as [|y l IH]; intros x; [reflexivity|].
  change (last (y :: l) d = last (y :: l) d'). apply IH.
Qed.

(** The loop of [uxst_bind_listeners] never stops early: no mask of
    [uxst_bind_listener] has [ERR_ABORT]. *)
Lemma bind_each_all {hd : headers} (global : globals) (env : Env)
    (errlen : Z) (ls : list listener) :
  forall (err : Z) (m : string) (w : world)
         (res : Z) (ls' : list listener) (m' : string) (w' : world),
  ~ has_flag err ERR_ABORT ->
  bind_each global env ls err m errlen w = (res, ls', m', w') ->
  exists outs : list (Z * listener * string),
    bind_in_order global env errlen w m ls outs w' /\
    res = accumulate err outs /\
    ls' = map (fun o => snd (fst o)) outs /\
    m' = last (map snd outs) m /\
    ~ has_flag res ERR_ABORT.
Proof.
  induction ls as [|l ls IH]; intros err m w res ls' m' w' Herr Hrun.
  - cbn in Hrun. injection Hrun as <- <- <- <-.
    exists []. repeat split; try constructor. exact Herr.
  - cbn [bind_each] in Hrun. unfold bind at 1 in Hrun.
    pose proof (bind_listener_never_aborts global env l m errlen w) as Hl.
    destruct (uxst_bind_listener global env l m errlen w)
      as [[[e l1] m1] w1] eqn:Hb.
    cbn [fst] in Hl.
    pose proof (no_flag_lor Herr Hl) as Hacc.
    assert (Hgo : truthy (Z.land (Z.lor err e) ERR_ABORT) = false).
    { unfold truthy, has_flag in *. apply negb_false_iff, Z.eqb_eq.
      destruct (Z.eq_dec (Z.land (Z.lor err e) ERR_ABORT) 0); tauto. }
    rewrite Hgo in Hrun. unfold bind at 1 in Hrun.
    destruct (bind_each global env ls (Z.lor err e) m1 errlen w1)
      as [[[res2 ls2] m2] w2] eqn:Hrest.
    cbn in Hrun. injection Hrun as <- <- <- <-.
    apply IH in Hrest; [|exact Hacc].
    destruct Hrest as (outs & Hseq & Hres & Hls & Hm & Hno).
    exists ((e, l1, m1) :: outs).
    split; [econstructor; [exact Hb | exact Hseq]|].
    split; [exact Hres|]. split; [now rewrite Hls|].
    split; [|exact Hno].
    rewrite Hm. destruct outs as [|p outs]; [reflexivity|].
    cbn [map]. change (last (snd (e, l1, m1) :: snd p :: map snd outs) m)
      with (last (snd p :: map snd outs) m).
    apply last_cons_default.
Qed.

Lemma bind_in_order_length {hd : headers} (global : globals) (env : Env)
    (errlen : Z) (w : world) (m : string) (ls : list listener)
    (outs : list (Z * listener * string)) (w' : world) :
  bind_in_order global env errlen w m ls outs w' -> length outs = length ls.
Proof. induction 1; cbn; congruence. Qed.

(** The last of the invocations of [bind_in_order]. *)
Lemma bind_in_order_last {hd : headers} (global : globals) (env : Env)
    (errlen : Z) (init : list listener) (l : listener) :
  forall (w : world) (m : string) (outs : list (Z * listener * string))
         (w' : world),
  bind_in_order global env errlen w m (init ++ [l])%list outs w' ->
  exists (w1 : world) (m1 : string) (outs1 : list (Z * listener * string))
         (o : Z * listener * string),
    bind_in_order global env errlen w m init outs1 w1 /\
    uxst_bind_listener global env l m1 errlen w1 = (o, w') /\
    outs = (outs1 ++ [o])%list.
Proof.
  induction init as [|l0 init IH]; intros w m outs w' H.
  - cbn in H. inversion H as [|? w1 ? ? ? ? o outs' Hb Hrest]; subst.
    inversion Hrest; subst.
    exists w, m, [], o. repeat split; [constructor | exact Hb].
  - cbn in H. inversion H as [|? w1 ? ? ? ? o outs' Hb Hrest]; subst.
    apply IH in Hrest.
    destruct Hrest as (w2 & m2 & outs2 & o2 & H1 & H2 & ->).
    exists w2, m2, (o :: outs2), o2.
    repeat split; [econstructor; eassumption | exact H2].
Qed.

(** From any world: a bind that returns [ERR_NONE] leaves the message
    empty when [errlen] is not zero. *)
Lemma bind_none_empties_message {hd : headers}
    (global : globals) (env : Env)
    (l : listener) (errmsg : string) (errlen : Z) (w : world)
    (res : Z) (l' : listener) (errmsg' : string) (w' : world) :
  uxst_bind_listener global env l errmsg errlen w = (res, l', errmsg', w') ->
  errlen <> 0 -> res = ERR_NONE -> errmsg' = "".
Proof.
  intros Hrun Hlen.
  assert (Ht : truthy errlen = true)
    by (unfold truthy; apply negb_true_iff, Z.eqb_neq, Hlen).
  destruct w as [tr e]. by_wp Hrun.
  unfold uxst_bind_listener. rewrite Ht.
  wp_prepare.
  wp_run.
  all: wp_done; intros Hres; try reflexivity.
  all: exfalso; revert Hres;
       first [ apply fatal_mask_not_none | apply retryable_mask_not_none ].
Qed.

Lemma unbind_in_order_length {hd : headers} (env : Env) (w : world)
    (ls ls' : list listener) (w' : world) :
  unbind_in_order env w ls ls' w' -> length ls' = length ls.
Proof. induction 1; cbn; congruence. Qed.

Lemma has_flag_lor_iff (a b f : Z) :
  has_flag (Z.lor a b) f <-> has_flag a f \/ has_flag b f.
Proof.
  unfold has_flag. rewrite Z.land_lor_distr_l, Z.lor_eq_0_iff.
  destruct (Z.eq_dec (Z.land a f) 0), (Z.eq_dec (Z.land b f) 0); tauto.
Qed.

Lemma has_flag_accumulate (outs : list (Z * listener * string)) :
  forall acc f,
  has_flag (accumulate acc outs) f <->
  has_flag acc f \/ exists o, In o outs /\ has_flag (fst (fst o)) f.
Proof.
  induction outs as [|o outs IH]; intros acc f.
  - cbn. split; [auto|]. intros [H | (o & [] & _)]. exact H.
  - rewrite accumulate_cons, IH, has_flag_lor_iff. cbn [In]. split.
    + intros [[H | H] | (o' & Hin & H)]; eauto.
    + intros [H | (o' & [<- | Hin] & H)]; eauto.
Qed.

(** X13. [uxst_bind_listeners] invokes [uxst_bind_listener] on every
    listener of the protocol, whatever the outcome of the previous ones:
    its loop never stops early, since no mask of [uxst_bind_listener] has
    [ERR_ABORT].  The protocol keeps its listeners, each as its bind left
    it, and their number; the returned mask has a flag exactly when the mask
    of one of the listeners has it. *)
Theorem bind_all_attempts_every_listener {hd : headers}
    (global : globals) (env : Env) (proto : protocol)
    (errmsg : string) (errlen : Z) (w : world)
    (res : Z) (proto' : protocol) (errmsg' : string) (w' : world) :
  uxst_bind_listeners global env proto errmsg errlen w =
    (res, proto', errmsg', w') ->
  exists outs : list (Z * listener * string),
    bind_in_order global env errlen w errmsg (listeners proto) outs w' /\
    length outs = length (listeners proto) /\
    listeners proto' = map (fun o => snd (fst o)) outs /\
    nb_listeners proto' = nb_listeners proto /\
    (forall f, has_flag res f <->
               exists o, In o outs /\ has_flag (fst (fst o)) f) /\
    ~ has_flag res ERR_ABORT.
Proof.
  intros Hrun. unfold uxst_bind_listeners, bind in Hrun.
  destruct (bind_each global env (listeners proto) ERR_NONE errmsg errlen w)
    as [[[res1 ls1] m1] w1] eqn:Hloop.
  cbn in Hrun. injection Hrun as <- <- <- <-.
  apply bind_each_all in Hloop; [|apply none_mask_no_flag].
  destruct Hloop as (outs & Hseq & Hres & Hls & _ & Hno).
  exists outs. cbn [listeners nb_listeners].
  pose proof (bind_in_order_length Hseq) as Hlen.
  repeat split; try assumption.
  - rewrite Hres, has_flag_accumulate. intros [H | H]; [|exact H].
    now apply none_mask_no_flag in H.
  - rewrite Hres, has_flag_accumulate. auto.
Qed.

Lemma bind_all_attempts_every_listener_witness :
  exists res proto' errmsg' w',
    uxst_bind_listeners (hd := linux_headers) globals0
        (env_bind (failure EADDRINUSE) (answer 0)) proto1 "" 100 world0 =
      (res, proto', errmsg', w') /\
    length (listeners proto') = 2%nat /\
    has_flag res (ERR_RETRYABLE (headers := linux_headers)) /\
    ~ has_flag res (ERR_ABORT (headers := linux_headers)).
Proof.
  eexists _, _, _, _. evaluate_run Hrun.
  apply bind_all_attempts_every_listener in Hrun.
  destruct Hrun as (outs & _ & Hlen & Hls & _ & _ & Hno).
  split; [reflexivity|]. split; [|exact Hno].
  vm_compute. discriminate.
Defined.

(** X14. The message that [uxst_bind_listeners] returns is the message of
    the bind of the last listener only: every bind starts by emptying it.
    When [errlen] is not zero and the last bind returns [ERR_NONE], the
    message is empty even if a previous listener failed. *)
Theorem bind_all_message_is_last {hd : headers}
    (global : globals) (env : Env) (proto : protocol)
    (errmsg : string) (errlen : Z) (w : world)
    (res : Z) (proto' : protocol) (errmsg' : string) (w' : world)
    (init : list listener) (l : listener) :
  uxst_bind_listeners global env proto errmsg errlen w =
    (res, proto', errmsg', w') ->
  listeners proto = (init ++ [l])%list ->
  exists (outs : list (Z * listener * string)) (m1 : string) (w1 : world)
         (r1 : Z) (l1 : listener),
    bind_in_order global env errlen w errmsg init outs w1 /\
    uxst_bind_listener global env l m1 errlen w1 = (r1, l1, errmsg', w') /\
    (errlen <> 0 -> r1 = ERR_NONE -> errmsg' = "").
Proof.
  intros Hrun Hls. unfold uxst_bind_listeners, bind in Hrun.
  destruct (bind_each global env (listeners proto) ERR_NONE errmsg errlen w)
    as [[[res1 ls1] m1] w1] eqn:Hloop.
  cbn in Hrun. injection Hrun as <- <- <- <-.
  apply bind_each_all in Hloop; [|apply none_mask_no_flag].
  destruct Hloop as (outs & Hseq & _ & _ & Hm & _).
  rewrite Hls in Hseq.
  apply bind_in_order_last in Hseq.
  destruct Hseq as (w2 & m2 & outs2 & [[r2 l2] m3] & Hinit & Hb & ->).
  rewrite map_app in Hm. cbn [map snd] in Hm. rewrite last_last in Hm.
  subst m3.
  exists outs2, m2, w2, r2, l2. split; [exact Hinit|]. split; [exact Hb|].
  intros Hlen Hr. eapply bind_none_empties_message; eassumption.
Qed.

Lemma bind_all_message_is_last_witness :
  exists res proto' errmsg' w',
    uxst_bind_listeners (hd := linux_headers) globals0
        (env_bind (failure EADDRINUSE) (answer 0)) proto1 "stale" 100 world0 =
      (res, proto', errmsg', w') /\
    has_flag res (ERR_RETRYABLE (headers := linux_headers)) /\
    errmsg' = "".
Proof.
  eexists _, _, _, _. evaluate_run Hrun.
  split; [vm_compute; discriminate|].
  apply (bind_all_message_is_last (hd := linux_headers))
    with (init := [listener0]) (l := listener_bound) in Hrun;
    [|reflexivity].
  destruct Hrun as (outs & m1 & w1 & r1 & l1 & _ & Hb & Hempty).
  apply Hempty; [discriminate|].
  unfold uxst_bind_listener in Hb. cbn in Hb.
  injection Hb. intros. subst r1. reflexivity.
Defined.

(** X15. [uxst_unbind_listeners] does not detach the listeners from the
    protocol: their number is the same after it.  On a protocol none of
    whose listeners is beyond [LI_ASSIGNED] it makes no call and changes
    nothing: [unbind_listener] is only called on a listener whose state is
    above [LI_ASSIGNED]. *)
Theorem unbind_all_keeps_listeners {hd : headers}
    (env : Env) (proto : protocol) (w : world)
    (res : Z) (proto' : protocol) (w' : world) :
  uxst_unbind_listeners env proto w = (res, proto', w') ->
  length (listeners proto') = length (listeners proto) /\
  nb_listeners proto' = nb_listeners proto /\
  (Forall (fun l => li_state l <= LI_ASSIGNED) (listeners proto) ->
   proto' = proto /\ w' = w).
Proof.
  intros Hrun.
  unfold uxst_unbind_listeners, bind in Hrun.
  destruct (unbind_each env (listeners proto) w) as [ls1 w1] eqn:Hloop.
  cbn in Hrun. injection Hrun as <- <- <-.
  cbn [listeners nb_listeners].
  split; [|split; [reflexivity|]].
  - apply unbind_each_in_order, unbind_in_order_length in Hloop. exact Hloop.
  - intros Hall.
    assert (H : ls1 = listeners proto /\ w1 = w).
    { clear - Hall Hloop. revert ls1 w1 w Hloop.
      induction Hall as [|l ls Hl Hall IH]; intros ls1 w1 w Hloop.
      - cbn in Hloop. now injection Hloop as <- <-.
      - cbn [unbind_each] in Hloop.
        unfold uxst_unbind_listener, bind at 1 2 in Hloop.
        apply Z.ltb_ge in Hl. rewrite Hl in Hloop.
        cbn [ret] in Hloop. unfold bind at 1 in Hloop.
        destruct (unbind_each env ls w) as [ls2 w2] eqn:Hrest.
        cbn in Hloop. injection Hloop as <- <-.
        destruct (IH _ _ _ Hrest) as [-> ->]. split; reflexivity. }
    destruct H as [-> ->]. destruct proto; split; reflexivity.
Qed.

Lemma unbind_all_keeps_listeners_witness :
  exists res proto' w',
    uxst_unbind_listeners (hd := linux_headers)
        (env_bind (answer 0) (answer 0))
        {| listeners := [listener0; listener_init]; nb_listeners := 2 |}
        world0 =
      (res, proto', w') /\
    proto' = {| listeners := [listener0; listener_init]; nb_listeners := 2 |} /\
    w' = world0.
Proof.
  eexists _, _, _. evaluate_run Hrun.
  apply unbind_all_keeps_listeners in Hrun.
  destruct Hrun as (_ & _ & H). apply H.
  repeat constructor; discriminate.
Defined.

(** X16. [uxst_add_listener] adds a listener once: called again on the
    listener it returned, with any port, it changes neither the protocol nor
    the listener.  The states [LI_INIT] and [LI_ASSIGNED] are taken to
    differ. *)
Theorem add_listener_only_once {hd : headers}
    (p : protocol) (l : listener) (port port' : Z) :
  LI_INIT <> LI_ASSIGNED ->
  uxst_add_listener (fst (uxst_add_listener p l port))
      (snd (uxst_add_listener p l port)) port' =
    uxst_add_listener p l port.
Proof.
  intros Hne. unfold uxst_add_listener at 2 3 4.
  destruct (li_state l =? LI_INIT) eqn:Hst; cbn [negb fst snd].
  - unfold uxst_add_listener. cbn [li_state set_li_state].
    apply Z.eqb_neq in Hne. rewrite Z.eqb_sym in Hne. rewrite Hne.
    reflexivity.
  - unfold uxst_add_listener. rewrite Hst. reflexivity.
Qed.

Lemma add_listener_only_once_witness :
  LI_INIT (headers := linux_headers) <> LI_ASSIGNED /\
  uxst_add_listener (hd := linux_headers)
      (fst (uxst_add_listener (hd := linux_headers) proto_unix
              listener_init 0))
      (snd (uxst_add_listener (hd := linux_headers) proto_unix
              listener_init 0)) 0 =
    uxst_add_listener (hd := linux_headers) proto_unix listener_init 0.
Proof.
  split; [discriminate|].
  apply (add_listener_only_once (hd := linux_headers)). discriminate.
Defined.

(** X17. [nb_listeners] is the number of the listeners of the protocol:
    this holds of [proto_unix] as it is initialised, and
    [uxst_add_listener], [uxst_bind_listeners] and [uxst_unbind_listeners]
    keep it. *)
Theorem protocol_count_invariant {hd : headers}
    (global : globals) (env : Env) :
  counted proto_unix /\
  (forall (p : protocol) (l : listener) (port : Z),
     counted p -> counted (fst (uxst_add_listener p l port))) /\
  (forall (p : protocol) (errmsg : string) (errlen : Z) (w : world),
     counted p ->
     counted (snd (fst (fst (uxst_bind_listeners global env p errmsg errlen w))))) /\
  (forall (p : protocol) (w : world),
     counted p -> counted (snd (fst (uxst_unbind_listeners env p w)))).
Proof.
  unfold counted. split; [reflexivity|]. split; [|split].
  - intros p l port Hp. unfold uxst_add_listener.
    destruct (negb (li_state l =? LI_INIT)); cbn [fst listeners nb_listeners];
      [exact Hp|].
    rewrite length_app. cbn [length]. lia.
  - intros p errmsg errlen w Hp.
    destruct (uxst_bind_listeners global env p errmsg errlen w)
      as [[[res p'] m'] w'] eqn:Hrun.
    cbn [fst snd].
    unfold uxst_bind_listeners, bind in Hrun.
    destruct (bind_each global env (listeners p) ERR_NONE errmsg errlen w)
      as [[[res1 ls1] m1] w1] eqn:Hloop.
    cbn in Hrun. injection Hrun as <- <- <- <-.
    apply bind_each_all in Hloop; [|apply none_mask_no_flag].
    destruct Hloop as (outs & Hseq & _ & -> & _ & _).
    cbn [listeners nb_listeners].
    rewrite length_map, (bind_in_order_length Hseq). exact Hp.
  - intros p w Hp.
    destruct (uxst_unbind_listeners env p w) as [[res p'] w'] eqn:Hrun.
    cbn [fst snd].
    unfold uxst_unbind_listeners, bind in Hrun.
    destruct (unbind_each env (listeners p) w) as [ls1 w1] eqn:Hloop.
    cbn in Hrun. injection Hrun as <- <- <-.
    apply unbind_each_in_order, unbind_in_order_length in Hloop.
    cbn [listeners nb_listeners]. rewrite Hloop. exact Hp.
Qed.

(** ** Outgoing connections *)




(** X19. [uxst_connect_server] never releases a descriptor twice: a run
    has at most one call among [close()] and the full close of the
    connection; it has none when it returns [SF_ERR_NONE] or when
    [socket()] failed; and a run that fails after [socket()] returned a
    descriptor releases that descriptor, once. *)
Theorem connect_closes_at_most_once {hd : headers}
    (global : globals) (env : Env)
    (conn : connection) (flags : Z)
    (out : sf_err) (conn' : connection) (w' : world) :
  uxst_connect_server global env conn flags world0 = (out, conn', w') ->
  (length (filter is_close (calls w')) <= 1)%nat /\
  (out = SF_ERR_NONE -> filter is_close (calls w') = []) /\
  (forall r, In (Ev sys_socket r) (w_trace w') -> r_ret r = -1 ->
     filter is_close (calls w') = []) /\
  (forall r, In (Ev sys_socket r) (w_trace w') -> r_ret r <> -1 ->
     out <> SF_ERR_NONE ->
     filter is_close (calls w') = [sys_close (r_ret r)] \/
     filter is_close (calls w') = [hap_conn_full_close (r_ret r)]).
Proof.
  intros Hrun. by_wp Hrun.
  unfold uxst_connect_server, world0.
  wp_prepare.
  destruct (truthy (conn_send_proxy_ofs conn)) eqn:Hsp.
  all: wp_run.
  all: wp_done.
  all: unfold calls;
       cbn [w_trace map app ev_call filter is_close length].
  all: split; [lia|].
  all: split; [intros Hout; first [reflexivity | discriminate Hout]|].
  all: split;
    [ intros rs Hin Hfd; in_trace Hin; bool_facts;
      first [ reflexivity | congruence ]
    | intros rs Hin Hfd Hout; in_trace Hin; bool_facts;
      first [ congruence
            | exfalso; apply Hout; reflexivity
            | left; reflexivity | right; reflexivity ] ].
Qed.

Lemma connect_closes_at_most_once_witness :
  exists out conn' w',
    uxst_connect_server (hd := linux_headers) globals0
        (env_connect (failure ETIMEDOUT)) conn0 0 world0 =
      (out, conn', w') /\
    (length (filter is_close (calls w')) <= 1)%nat.
Proof.
  eexists _, _, _. evaluate_run Hrun.
  apply connect_closes_at_most_once in Hrun.
  destruct Hrun as (H & _). exact H.
Defined.

(** X20. [uxst_connect_server] calls [connect()] on the destination of
    the connection and on the descriptor that [socket()] returned, which is
    below [global.maxsock], was made non-blocking with success and, when
    [master] is 1, close-on-exec with success.  The calls before
    [connect()] are, in order: [socket()], the two [fcntl()], and the
    [setsockopt()] of the send and receive buffers for the sizes that are
    not zero. *)
Theorem connect_is_prepared {hd : headers}
    (global : globals) (env : Env)
    (conn : connection) (flags : Z)
    (out : sf_err) (conn' : connection) (w' : world)
    (fd : Z) (dst : string) (r : reply) :
  uxst_connect_server global env conn flags world0 = (out, conn', w') ->
  In (Ev (sys_connect fd dst) r) (w_trace w') ->
  dst = conn_dst conn /\
  fd <> -1 /\ fd < maxsock global /\
  (exists rs, In (Ev sys_socket rs) (w_trace w') /\ r_ret rs = fd) /\
  (exists rn,
     In (Ev (sys_fcntl_nonblock fd) rn) (w_trace w') /\ r_ret rn <> -1) /\
  (master global = 1 ->
   exists rc,
     In (Ev (sys_fcntl_cloexec fd) rc) (w_trace w') /\ r_ret rc <> -1) /\
  exists rest,
    calls w' =
      ([sys_socket; sys_fcntl_nonblock fd] ++
       (if master global =? 1 then [sys_fcntl_cloexec fd] else []) ++
       (if truthy (tune_server_sndbuf global)
        then [sys_setsockopt_sndbuf fd (tune_server_sndbuf global)]
        else []) ++
       (if truthy (tune_server_rcvbuf global)
        then [sys_setsockopt_rcvbuf fd (tune_server_rcvbuf global)]
        else []) ++
       sys_connect fd dst :: rest)%list.
Proof.
  intros Hrun. by_wp Hrun.
  unfold uxst_connect_server, world0.
  wp_prepare.
  destruct (truthy (conn_send_proxy_ofs conn)) eqn:Hsp.
  all: wp_run.
  all: wp_done; intros Hin; in_trace Hin.
  all: split; [reflexivity|].
  all: repeat match goal with
       | E : ?c = _ |- context [if ?c then _ else _] => rewrite E
       end.
  all: bool_facts.
  all: split; [assumption|]. 
  all: split; [lia|].
  all: split; [show_cause|].
  all: split; [show_cause|].
  all: split; [intros Hm; first [ show_cause | congruence ]|].
  all: unfold calls; cbn [w_trace map app ev_call]; eexists; reflexivity.
Qed.

Lemma connect_is_prepared_witness :
  exists out conn' w',
    uxst_connect_server (hd := linux_headers) globals0
        (env_connect (answer 0)) conn0 0 world0 =
      (out, conn', w') /\
    In (Ev (sys_connect 7 "/run/app.sock") (answer 0)) (w_trace w') /\
    7 < maxsock globals0 /\
    exists rn,
      In (Ev (sys_fcntl_nonblock 7) rn) (w_trace w') /\ r_ret rn <> -1.
Proof.
  eexists _, _, _. evaluate_run Hrun.
  split; [in_list|].
  apply (@connect_is_prepared linux_headers globals0
           (env_connect (answer 0)) conn0 0 _ _ _
           7 "/run/app.sock" (answer 0)) in Hrun; [|in_list].
  destruct Hrun as (_ & _ & H1 & _ & H2 & _). split; assumption.
Defined.





(** X23. When [socket()] fails, the calls of [uxst_connect_server] are
    [socket()], the message on the standard error and, when the error
    number read after this message is [ENFILE], [EMFILE], [ENOBUFS] or
    [ENOMEM], one log of priority [LOG_EMERG] to the backend, with the text
    of that error number, the name of the backend and [global.maxsock].
    The error number read is the one of [socket()] when the message left
    [errno] alone, and the one the message left otherwise.  Nothing is
    closed, [handle.fd] is -1, the outcome is [SF_ERR_RESOURCE] and the
    error code goes with the error number read. *)
Theorem connect_socket_failure_sequence {hd : headers}
    (global : globals) (env : Env)
    (conn : connection) (flags : Z) (r : reply)
    (out : sf_err) (conn' : connection) (w' : world) :
  uxst_connect_server global env conn flags world0 = (out, conn', w') ->
  In (Ev sys_socket r) (w_trace w') ->
  r_ret r = -1 ->
  exists be rq,
    conn_backend conn = Some be /\
    In (Ev (hap_qfprintf fmt_cannot_get_socket []) rq) (w_trace w') /\
    calls w' =
      ([sys_socket; hap_qfprintf fmt_cannot_get_socket []] ++
       (if socket_errno_logged (errno_after (r_errno r) rq)
        then [hap_send_log be LOG_EMERG
                (socket_log_format (errno_after (r_errno r) rq))
                [arg_s (id be); arg_d (maxsock global)]]
        else []))%list /\
    out = SF_ERR_RESOURCE /\
    conn_handle_fd conn' = -1 /\
    conn_err_code conn' = socket_err_code (errno_after (r_errno r) rq) /\
    (r_errno rq = E_other 0 -> errno_after (r_errno r) rq = r_errno r).
Proof.
  intros Hrun. revert r. by_wp Hrun.
  unfold uxst_connect_server, world0.
  wp_run.
  all: wp_done; intros rs Hin Hfd; in_trace Hin.
  all: bool_facts; try congruence.
  all: eexists _, _; split; [eassumption|]; split; [solve [in_list]|].
  all: answer_facts.
  all: repeat match goal with E : errno_after _ _ = _ |- _ => rewrite E end.
  all: try lazymatch goal with
       | |- context [socket_err_code (errno_after ?a ?b)] =>
           destruct (errno_after a b) eqn:?; try congruence
       end.
  all: repeat split; try solve [reflexivity | assumption].
  all: intros Hq; unfold errno_after in *; rewrite Hq in *;
       cbn [errno_eqb] in *; rewrite ?Z.eqb_refl in *; congruence.
Qed.

Lemma connect_socket_failure_sequence_witness :
  exists out conn' w',
    uxst_connect_server (hd := linux_headers) globals0
        (env_socket (failure EMFILE)) conn0 0 world0 =
      (out, conn', w') /\
    In (Ev sys_socket (failure EMFILE)) (w_trace w') /\
    exists be,
      conn_backend conn0 = Some be /\
      calls w' =
        [sys_socket; hap_qfprintf fmt_cannot_get_socket [];
         hap_send_log be LOG_EMERG fmt_process_fd_limit
           [arg_s (id be); arg_d 100]] /\
      conn_err_code conn' = CO_ER_PROC_FDLIM.
Proof.
  eexists _, _, _. evaluate_run Hrun.
  split; [in_list|].
  apply (@connect_socket_failure_sequence linux_headers globals0
           (env_socket (failure EMFILE)) conn0 0 (failure EMFILE)) in Hrun;
    [ | in_list | reflexivity ].
  destruct Hrun as (be & rq & H1 & Hq & H2 & _ & _ & H3 & _).
  apply In_same_call in Hq. in_explicit Hq.
  exists be. repeat split; assumption.
Defined.

(** X24. Every log of [uxst_connect_server] goes to the backend of the
    connection, the proxy of the server when the target is a server, with
    the name of that backend as its first argument, and comes with the
    outcome [SF_ERR_RESOURCE].  It has the priority [LOG_EMERG] after a
    failed [socket()], and otherwise the priority [LOG_ERR] after a failed
    [connect()] whose descriptor was closed, the same text having been
    written on the standard error. *)
Theorem connect_logs_to_backend {hd : headers}
    (global : globals) (env : Env)
    (conn : connection) (flags : Z)
    (out : sf_err) (conn' : connection) (w' : world)
    (px : proxy) (lvl : log_level) (fmt : string) (args : list fmt_arg) :
  uxst_connect_server global env conn flags world0 = (out, conn', w') ->
  In (hap_send_log px lvl fmt args) (calls w') ->
  conn_backend conn = Some px /\
  out = SF_ERR_RESOURCE /\
  (exists rest, args = arg_s (id px) :: rest) /\
  (lvl = LOG_EMERG /\
   (exists r, In (Ev sys_socket r) (w_trace w') /\ r_ret r = -1) \/
   lvl = LOG_ERR /\
   (exists fd dst r,
      In (Ev (sys_connect fd dst) r) (w_trace w') /\ r_ret r = -1 /\
      In (sys_close fd) (calls w')) /\
   In (hap_qfprintf fmt args) (calls w')).
Proof.
  intros Hrun. by_wp Hrun.
  unfold uxst_connect_server, world0.
  wp_prepare.
  destruct (truthy (conn_send_proxy_ofs conn)) eqn:Hsp.
  all: wp_run.
  all: wp_done; intros Hin; in_calls Hin.
  all: split; [assumption|].
  all: split; [reflexivity|].
  all: split; [eexists; reflexivity|].
  all: bool_facts; show_cause.
Qed.

Lemma connect_logs_to_backend_witness :
  exists out conn' w',
    uxst_connect_server (hd := linux_headers) globals0
        (env_socket (failure EMFILE)) conn0 0 world0 =
      (out, conn', w') /\
    In (hap_send_log backend0 LOG_EMERG fmt_process_fd_limit
          [arg_s "be1"; arg_d 100]) (calls w') /\
    conn_backend conn0 = Some backend0 /\
    out = SF_ERR_RESOURCE.
Proof.
  eexists _, _, _. evaluate_run Hrun.
  split; [in_list|].
  apply (@connect_logs_to_backend linux_headers globals0
           (env_socket (failure EMFILE)) conn0 0 _ _ _
           backend0 LOG_EMERG fmt_process_fd_limit
           [arg_s "be1"; arg_d 100]) in Hrun; [|in_list].
  destruct Hrun as (H1 & H2 & _). split; assumption.
Defined.

(** X25. Each outcome of [uxst_connect_server] tells what happened.
    [SF_ERR_NONE]: [connect()] succeeded, or failed with [EINPROGRESS],
    [EALREADY] or [EISCONN], and [conn_xprt_init] did not fail.
    [SF_ERR_SRVTO]: [connect()] failed with [ETIMEDOUT].  [SF_ERR_SRVCL]:
    [connect()] failed with an error number that the function does not
    know.  [SF_ERR_PRXCOND]: [socket()] returned a descriptor that is not
    below [global.maxsock].  [SF_ERR_RESOURCE]: [socket()] failed, or
    [connect()] failed with [EAGAIN], [EADDRINUSE] or [EADDRNOTAVAIL], or
    [conn_xprt_init] failed.  [SF_ERR_INTERNAL]: the target is neither a
    proxy nor a server, or one of the two [fcntl()] failed. *)
Theorem connect_outcome_explains_cause {hd : headers}
    (global : globals) (env : Env)
    (conn : connection) (flags : Z)
    (out : sf_err) (conn' : connection) (w' : world) :
  uxst_connect_server global env conn flags world0 = (out, conn', w') ->
  match out with
  | SF_ERR_NONE =>
      exists fd dst r x,
        In (Ev (sys_connect fd dst) r) (w_trace w') /\
        (r_ret r <> -1 \/
         In (r_errno r) [EINPROGRESS; EALREADY; EISCONN]) /\
        In (Ev (hap_conn_xprt_init fd) x) (w_trace w') /\ 0 <= r_ret x
  | SF_ERR_SRVTO =>
      exists fd dst r,
        In (Ev (sys_connect fd dst) r) (w_trace w') /\
        r_ret r = -1 /\ r_errno r = ETIMEDOUT
  | SF_ERR_SRVCL =>
      exists fd dst r,
        In (Ev (sys_connect fd dst) r) (w_trace w') /\
        r_ret r = -1 /\
        ~ In (r_errno r) [EINPROGRESS; EALREADY; EISCONN; EAGAIN;
                          EADDRINUSE; EADDRNOTAVAIL; ETIMEDOUT]
  | SF_ERR_PRXCOND =>
      exists r,
        In (Ev sys_socket r) (w_trace w') /\
        r_ret r <> -1 /\ maxsock global <= r_ret r
  | SF_ERR_RESOURCE =>
      (exists r, In (Ev sys_socket r) (w_trace w') /\ r_ret r = -1) \/
      (exists fd dst r,
         In (Ev (sys_connect fd dst) r) (w_trace w') /\
         r_ret r = -1 /\
         In (r_errno r) [EAGAIN; EADDRINUSE; EADDRNOTAVAIL]) \/
      (exists fd x,
         In (Ev (hap_conn_xprt_init fd) x) (w_trace w') /\ r_ret x < 0)
  | SF_ERR_INTERNAL =>
      conn_target conn = OBJ_TYPE_other \/
      (exists fd r,
         In (Ev (sys_fcntl_nonblock fd) r) (w_trace w') /\ r_ret r = -1) \/
      (master global = 1 /\
       exists fd r,
         In (Ev (sys_fcntl_cloexec fd) r) (w_trace w') /\ r_ret r = -1)
  end.
Proof.
  intros Hrun. by_wp Hrun.
  unfold uxst_connect_server, world0.
  wp_prepare.
  destruct (truthy (conn_send_proxy_ofs conn)) eqn:Hsp.
  all: wp_run.
  all: wp_done; answer_facts.
  all: try (destruct (conn_target conn); try discriminate).
  all: show_cause.
Qed.

Lemma connect_outcome_explains_cause_witness :
  exists out conn' w',
    uxst_connect_server (hd := linux_headers) globals0
        (env_connect (failure ETIMEDOUT)) conn0 0 world0 =
      (out, conn', w') /\
    out = SF_ERR_SRVTO /\
    exists fd dst r,
      In (Ev (sys_connect fd dst) r) (w_trace w') /\
      r_ret r = -1 /\ r_errno r = ETIMEDOUT.
Proof.
  eexists _, _, _. evaluate_run Hrun.
  split; [reflexivity|].
  apply connect_outcome_explains_cause in Hrun. exact Hrun.
Defined.
